(** * Headlamp desktop shell: update notifier, server supervisor, preload bridge

    A shallow embedding of [app/electron/main.ts] and
    [app/electron/preload.ts].  Module-level variables of the TypeScript
    code become fields of explicit state records; calls into Electron,
    Node and Octokit become entries of effect traces (signals sent to the
    renderer, log lines, OS requests) or answers of an oracle (the release
    source, [spawn]). *)

From Stdlib Require Import ZArith String Ascii List Lia Bool.
From stdpp Require Import base strings gmap list pretty.
Import ListNotations.
Open Scope string_scope.
Open Scope list_scope.

(** ** JavaScript values

    The values that travel through the persisted store, the release
    metadata and the IPC payloads are JSON values.  Numbers are the
    integer-valued ones; objects and arrays are kept as references, which
    is all that truthiness and [!==] look at. *)

Inductive jsval : Type :=
  | JUndefined
  | JNull
  | JBool (b : bool)
  | JNum (n : Z)
  | JStr (s : string)
  | JObject (ref : nat).

#[global] Instance jsval_eq_dec : EqDecision jsval.
Proof. solve_decision. Defined.

(** [!v] is [negb (truthy v)]. *)
Definition truthy (v : jsval) : bool :=
  match v with
  | JUndefined => false
  | JNull => false
  | JBool b => b
  | JNum n => negb (n =? 0)%Z
  | JStr s => negb (String.eqb s "")
  | JObject _ => true
  end.

(** [a !== b] *)
Definition strict_neq (a b : jsval) : bool := bool_decide (a ≠ b).

(** An object literal [{ k1: v1, ... }] used as a message payload. *)
Definition payload : Type := list (string * jsval).

(** * The update notifier: [fetchRelease] (main.ts, lines 298-329) *)

Module Notifier.

(** [response.data] of a release request: the fields the code reads. *)
Record release : Type := Release {
  name : jsval;
  html_url : jsval;
  body : jsval;
}.

(** [octokit.request(route, { owner, repo })]: the release source answers
    with a release, or the promise is rejected ([None]). *)
Definition octokit : Type := string → string → string → option release.

(** A message for the renderer: channel and payload. *)
Definition signal : Type := (string * payload)%type.

(** The effects of a pass, in the order they happen. *)
Inductive effect : Type :=
  | Requested (route owner repo : string)
  | Sent (sg : signal)
  | Logged (v : jsval)
  | Stored (key : string) (v : jsval).

(** What a pass reads and writes: the electron-store contents, and the
    trace of everything it did. *)
Record state : Type := State {
  store : gmap string jsval;
  trace : list effect;
}.

Definition emit (ef : effect) (st : state) : state :=
  State (store st) (trace st ++ [ef]).

(** An [async] function body: every step may reject, which abandons the
    rest of the body and keeps the effects made so far. *)
Definition M (A : Type) : Type := state → option A * state.

Definition ret {A} (a : A) : M A := fun st => (Some a, st).

Definition bind {A B} (m : M A) (k : A → M B) : M B :=
  fun st =>
    match m st with
    | (Some a, st') => k a st'
    | (None, st') => (None, st')
    end.

#[global] Instance M_ret : MRet M := @ret.
#[global] Instance M_bind : MBind M := fun A B k m => bind m k.

(** [await octokit.request(route, { owner, repo })] *)
Definition request (oct : octokit) (route owner repo : string) : M release :=
  fun st => (oct route owner repo, emit (Requested route owner repo) st).

(** [store.get(key)]: [undefined] when the key is missing. *)
Definition store_get (key : string) : M jsval :=
  fun st => (Some (default JUndefined (store st !! key)), st).

(** [store.set(key, value)] *)
Definition store_set (key : string) (v : jsval) : M unit :=
  fun st => (Some tt, State (<[key := v]> (store st)) (trace st ++ [Stored key v])).

(** [mainWindow.webContents.send(channel, payload)] *)
Definition send (channel : string) (p : payload) : M unit :=
  fun st => (Some tt, emit (Sent (channel, p)) st).

Definition console_log (v : jsval) : M unit :=
  fun st => (Some tt, emit (Logged v) st).

Definition latest_route : string := "GET /repos/{owner}/{repo}/releases/latest".

(** [`GET /repos/{owner}/{repo}/releases/tags/v${appVersion}`] *)
Definition tag_route (appVersion : string) : string :=
  "GET /repos/{owner}/{repo}/releases/tags/v" +:+ appVersion.

Definition fetchRelease (appVersion : string) (oct : octokit) : M unit :=
  response ← request oct latest_route "ashu8912" "update-testing";
  (if strict_neq (name response) (JStr appVersion)
   then send "update_available" [("downloadURL", html_url response)]
   else ret tt);;
  storedAppVersion ← store_get "app_version";
  console_log storedAppVersion;;
  if negb (truthy storedAppVersion) then
    store_set "app_version" (JStr appVersion)
  else if strict_neq storedAppVersion (JStr appVersion) then
    releaseTagResponse ← request oct (tag_route appVersion) "ashu8912" "update-testing";
    send "show_release_notes" [("releaseNotes", body releaseTagResponse)];;
    store_set "app_version" (JStr appVersion)
  else ret tt.

(** One update-check pass of a freshly started application over the
    persisted store [s]: whether the pass ran to its end, what it did, the
    signals it sent, and the store it leaves behind. *)
Definition pass (appVersion : string) (oct : octokit) (s : gmap string jsval)
  : option unit * state :=
  fetchRelease appVersion oct (State s []).

Definition pass_completed (appVersion : string) (oct : octokit) (s : gmap string jsval) : bool :=
  bool_decide (is_Some (fst (pass appVersion oct s))).

Definition pass_trace (appVersion : string) (oct : octokit) (s : gmap string jsval) : list effect :=
  trace (snd (pass appVersion oct s)).

Definition sent (tr : list effect) : list signal :=
  omap (fun ef => match ef with Sent sg => Some sg | _ => None end) tr.

(** The writes to the store, in order. *)
Definition stores (tr : list effect) : list (string * jsval) :=
  omap (fun ef => match ef with Stored k v => Some (k, v) | _ => None end) tr.

Definition pass_signals (appVersion : string) (oct : octokit) (s : gmap string jsval) : list signal :=
  sent (pass_trace appVersion oct s).

Definition pass_store (appVersion : string) (oct : octokit) (s : gmap string jsval) : gmap string jsval :=
  store (snd (pass appVersion oct s)).

(** The value [store.get('app_version')] reads from [s]. *)
Definition storedVersion (s : gmap string jsval) : jsval :=
  default JUndefined (s !! "app_version").

(** What a pass has done once it has compared the latest release [r] with
    the running version and read the store (lines 299-314). *)
Definition comparison_trace (appVersion : string) (r : release) (s : gmap string jsval)
  : list effect :=
  [Requested latest_route "ashu8912" "update-testing"]
  ++ (if strict_neq (name r) (JStr appVersion)
      then [Sent ("update_available", [("downloadURL", html_url r)])]
      else [])
  ++ [Logged (storedVersion s)].

Definition on_channel (channel : string) (sg : signal) : bool :=
  String.eqb (fst sg) channel.

(** The signals of a trace sent on one channel. *)
Definition signals_on (channel : string) (l : list signal) : list signal :=
  List.filter (on_channel channel) l.

(** Successive application runs over the same persisted store: each run
    has its own version and its own answers from the release source. *)
Fixpoint run_passes (runs : list (string * octokit)) (s : gmap string jsval)
  : list (string * list signal) * gmap string jsval :=
  match runs with
  | [] => ([], s)
  | (v, oct) :: rest =>
      let '(tr, s') := run_passes rest (pass_store v oct s) in
      ((v, pass_signals v oct s) :: tr, s')
  end.

(** The marker as each run leaves it. *)
Fixpoint marker_history (runs : list (string * octokit)) (s : gmap string jsval)
  : list jsval :=
  match runs with
  | [] => []
  | (v, oct) :: rest =>
      let s' := pass_store v oct s in
      storedVersion s' :: marker_history rest s'
  end.

(** How often [show_release_notes] was sent by runs of version [v]. *)
Definition notes_shown_for (v : string) (tr : list (string * list signal)) : nat :=
  list_sum (List.map (fun r => if String.eqb (fst r) v
                               then length (signals_on "show_release_notes" (snd r))
                               else 0) tr).

(** A release source that always answers, with the tag's notes in [body]. *)
Definition github (latest_name : string) : octokit :=
  fun route _ _ =>
    Some (Release (JStr latest_name)
                  (JStr "https://github.com/ashu8912/update-testing/releases/latest")
                  (JStr ("notes of " +:+ route))).

End Notifier.


(** * The server process supervisor (main.ts, lines 28-64 and 381-407) *)

Module Supervisor.

Inductive level : Type := Info | Error.

#[global] Instance level_eq_dec : EqDecision level.
Proof. solve_decision. Defined.

(** A line written through [log.info] or [log.error]. *)
Definition log_line : Type := (level * string)%type.

Record spawn_options : Type := SpawnOptions {
  shell : bool;
  detached : bool;
}.

(** What became of a [spawn] request.  [Spawned]: a process was created;
    as the server is run through a shell ([shell: true]) this is the shell,
    whether or not the file it is to run exists.  [SpawnFailed]: no process
    was created and the handle, which has no pid, reports it by its
    ['error'] event, the one [attachServerEventHandlers] subscribes to at
    line 382.  Other ways in which [spawn] can end (it throws, or it hands
    back a handle without streams) are outside this model. *)
Inductive spawn_outcome : Type :=
  | Spawned (pid : Z)
  | SpawnFailed (err : string).

(** A [ChildProcess] handle: [cid] is the identity of the object (the
    ordinal of the [spawn] call that made it), [pid] is [undefined] when no
    process was created. *)
Record ChildProcess : Type := Child {
  cid : nat;
  pid : option Z;
}.

(** Requests made to Node and the operating system. *)
Inductive os_call : Type :=
  | Spawn (file : string) (args : list string) (opts : spawn_options)
  | ProcessKill (target : Z)
  | StdinDestroy (child : nat)
  | ChildKill (target : Z)
  | OpenURL (url : string).

(** A termination signal sent to the OS: [process.kill] or a delivered
    [child.kill]. *)
Definition is_signal (c : os_call) : bool :=
  match c with
  | ProcessKill _ | ChildKill _ => true
  | _ => false
  end.

Definition signals_of (l : list os_call) : list os_call := List.filter is_signal l.

(** The process-wide surroundings of the module. *)
Record env : Type := Env {
  platform : string;
  resourcesPath : string;
  path_join : list string → string;
  spawn_oracle : nat → spawn_outcome;
}.

(** The module-level variables [serverProcess], [intentionalQuit] and
    [serverProcessQuit] (the two flags start out [undefined], which every
    test in the code reads as false), the handles that have observers
    attached, and the traces of log lines and OS requests. *)
Record state : Type := State {
  serverProcess : option ChildProcess;
  intentionalQuit : bool;
  serverProcessQuit : bool;
  attached : list nat;
  spawn_count : nat;
  log : list log_line;
  os : list os_call;
}.

Definition init : state := State None false false [] 0 [] [].

Definition set_serverProcess (p : option ChildProcess) (st : state) : state :=
  State p (intentionalQuit st) (serverProcessQuit st) (attached st)
        (spawn_count st) (log st) (os st).

Definition set_intentionalQuit (b : bool) (st : state) : state :=
  State (serverProcess st) b (serverProcessQuit st) (attached st)
        (spawn_count st) (log st) (os st).

Definition set_serverProcessQuit (b : bool) (st : state) : state :=
  State (serverProcess st) (intentionalQuit st) b (attached st)
        (spawn_count st) (log st) (os st).

Definition write_log (lv : level) (msg : string) (st : state) : state :=
  State (serverProcess st) (intentionalQuit st) (serverProcessQuit st)
        (attached st) (spawn_count st) (log st ++ [(lv, msg)]) (os st).

Definition os_request (c : os_call) (st : state) : state :=
  State (serverProcess st) (intentionalQuit st) (serverProcessQuit st)
        (attached st) (spawn_count st) (log st) (os st ++ [c]).

(** [spawn(file, args, options)]: always hands back a handle. *)
Definition spawn (e : env) (file : string) (args : list string)
    (opts : spawn_options) (st : state) : ChildProcess * state :=
  let n := spawn_count st in
  let child := Child n (match spawn_oracle e n with
                        | Spawned p => Some p
                        | SpawnFailed _ => None
                        end) in
  (child,
   State (serverProcess st) (intentionalQuit st) (serverProcessQuit st)
         (attached st) (S n) (log st) (os st ++ [Spawn file args opts])).

Definition startServer (e : env) (flags : list string) (st : state)
  : ChildProcess * state :=
  let serverFilePath := path_join e [resourcesPath e; "./server"] in
  let options := SpawnOptions true false in
  let options :=
    if negb (String.eqb (platform e) "win32")
    then SpawnOptions (shell options) true
    else options in
  spawn e serverFilePath flags options st.

(** How a call ended: it returned, or an exception left it. *)
Inductive outcome : Type :=
  | Returned
  | Thrown (what : string).

(** [process.kill(-serverProcess.pid)]: without a pid the argument is
    [NaN], which [process.kill] rejects by throwing. *)
Definition process_kill_group (c : ChildProcess) (st : state) : outcome * state :=
  match pid c with
  | Some p => (Returned, os_request (ProcessKill (- p)) st)
  | None => (Thrown "TypeError [ERR_INVALID_ARG_TYPE]: pid", st)
  end.

(** [serverProcess.kill()]: a handle without a process has nothing to
    signal. *)
Definition child_kill (c : ChildProcess) (st : state) : state :=
  match pid c with
  | Some p => os_request (ChildKill p) st
  | None => st
  end.

Definition quitServerProcess (e : env) (st : state) : outcome * state :=
  match serverProcess st with
  | Some child =>
      if serverProcessQuit st then
        (Returned, write_log Error "server process already not running" st)
      else
        let st := set_intentionalQuit true st in
        let st := write_log Info "stopping server process..." st in
        let '(o, st) :=
          if negb (String.eqb (platform e) "win32")
          then process_kill_group child st
          else (Returned, st) in
        match o with
        | Thrown w => (Thrown w, st)
        | Returned =>
            let st := os_request (StdinDestroy (cid child)) st in
            let st := child_kill child st in
            (Returned, set_serverProcess None st)
        end
  | None => (Returned, write_log Error "server process already not running" st)
  end.

(** A chunk delivered by a stream's ['data'] event. *)
Inductive chunk : Type :=
  | ChunkBuffer (bytes : string)
  | ChunkString (text : string).

(** The text [`${data}`] puts into a template literal. *)
Definition chunk_text (d : chunk) : string :=
  match d with
  | ChunkBuffer b => b
  | ChunkString s => s
  end.

(** A [Buffer] object is always truthy; a string is unless it is empty. *)
Definition chunk_truthy (d : chunk) : bool :=
  match d with
  | ChunkBuffer _ => true
  | ChunkString s => negb (String.eqb s "")
  end.

Fixpoint starts_with (needle hay : string) : bool :=
  match needle, hay with
  | EmptyString, _ => true
  | String a needle', String b hay' => Ascii.eqb a b && starts_with needle' hay'
  | String _ _, EmptyString => false
  end.

Fixpoint index_from (i : Z) (needle hay : string) : Z :=
  if starts_with needle hay then i
  else match hay with
       | EmptyString => -1
       | String _ hay' => index_from (i + 1) needle hay'
       end.

(** [needle] occurs somewhere in [hay]. *)
Definition contains (needle hay : string) : Prop :=
  ∃ pre post, hay = pre +:+ needle +:+ post.

(** [data.indexOf(needle)]: the first position of [needle], or [-1]. *)
Definition indexOf (d : chunk) (needle : string) : Z :=
  index_from 0 needle (chunk_text d).

(** [`${v}`] for a number or [null]. *)
Definition show_code (code : option Z) : string :=
  match code with
  | Some n => pretty n
  | None => "null"
  end.

Definition show_signal (sig : option string) : string :=
  match sig with
  | Some s => s
  | None => "null"
  end.

(** The four observers of [attachServerEventHandlers]. *)
Definition on_error (err : string) (st : state) : state :=
  write_log Error ("server process failed to start: " +:+ err) st.

Definition on_stdout_data (data : chunk) (st : state) : state :=
  write_log Info ("server process stdout: " +:+ chunk_text data) st.

Definition on_stderr_data (data : chunk) (st : state) : state :=
  let sterrMessage := "server process stderr: " +:+ chunk_text data in
  if chunk_truthy data && negb (indexOf data "Requesting" =? -1)%Z
  then write_log Info sterrMessage st
  else write_log Error sterrMessage st.

Definition on_close (code : option Z) (sig : option string) (st : state) : state :=
  let closeMessage :=
    "server process process exited with code:" +:+ show_code code
      +:+ " signal:" +:+ show_signal sig in
  let st := if negb (intentionalQuit st)
            then write_log Error closeMessage st
            else write_log Info closeMessage st in
  set_serverProcessQuit true st.

Definition attachServerEventHandlers (child : ChildProcess) (st : state) : state :=
  State (serverProcess st) (intentionalQuit st) (serverProcessQuit st)
        (attached st ++ [cid child]) (spawn_count st) (log st) (os st).

(** [start] as its callers use it: spawn, keep the handle in
    [serverProcess], attach the observers. *)
Definition start (e : env) (flags : list string) (st : state) : state :=
  let '(child, st) := startServer e flags st in
  let st := set_serverProcess (Some child) st in
  attachServerEventHandlers child st.

(** Sample surroundings: [path.join] on the arguments the code passes
    (segments joined by the separator, a leading [./] normalised away),
    and an operating system that answers the [n]-th [spawn] as [oracle n]. *)
Definition strip_dot (seg : string) : string :=
  match seg with
  | String "." (String "/" rest) => rest
  | _ => seg
  end.

Definition join_with (sep : string) (parts : list string) : string :=
  String.concat sep (List.map strip_dot parts).

Definition linux (oracle : nat → spawn_outcome) : env :=
  Env "linux" "/opt/Headlamp/resources" (join_with "/") oracle.

Definition windows (oracle : nat → spawn_outcome) : env :=
  Env "win32" "C:\Headlamp\resources" (join_with "\") oracle.

(** Every [spawn] creates a process; the first has pid 4242. *)
Definition spawning (n : nat) : spawn_outcome := Spawned (4242 + Z.of_nat n).

(** No [spawn] creates a process. *)
Definition failing (n : nat) : spawn_outcome :=
  SpawnFailed "Error: spawn /bin/sh ENOENT".

End Supervisor.

(** * The application as an event machine (main.ts, lines 265-375 and 409-417) *)

Module App.

Import Supervisor.

(** [let mainWindow: BrowserWindow | null;] starts out [undefined]. *)
Inductive window : Type :=
  | WinUndefined
  | WinNull
  | WinOpen (id : nat).

(** [args.headless], [args['disable-gpu']] and [process.env.ELECTRON_DEV]. *)
Record config : Type := Config {
  isHeadlessMode : bool;
  disableGPU : bool;
  isDev : bool;
}.

(** The supervisor's variables and [mainWindow], together with what the
    Electron runtime knows: [electron] records that [startElecron] ran, so
    that the [app] events have its handlers; [ready] that ['ready'] has been
    emitted; [quit] that ['quit'] has been emitted and the application is
    gone; [exited] lists the handles whose process the OS has reported as
    exited. *)
Record state : Type := State {
  sup : Supervisor.state;
  mainWindow : window;
  windows_created : nat;
  electron : bool;
  ready : bool;
  quit : bool;
  exited : list nat;
}.

Definition with_sup (s : Supervisor.state) (a : state) : state :=
  State s (mainWindow a) (windows_created a) (electron a) (ready a) (quit a) (exited a).

Definition set_mainWindow (w : window) (a : state) : state :=
  State (sup a) w (windows_created a) (electron a) (ready a) (quit a) (exited a).

(** [createWindow] (lines 275-351): a new window in [mainWindow] and,
    unless in development, a new server. *)
Definition createWindow (e : env) (cfg : config) (a : state) : state :=
  let a := State (sup a) (WinOpen (windows_created a)) (S (windows_created a))
                 (electron a) (ready a) (quit a) (exited a) in
  if negb (isDev cfg)
  then with_sup (Supervisor.start e [] (sup a)) a
  else a.

(** [startElecron] (lines 265-373) up to the registration of the handlers. *)
Definition startElecron (cfg : config) (s : Supervisor.state) : state :=
  let s := write_log Info "App starting..." s in
  let s := if disableGPU cfg
           then write_log Info "Disabling GPU hardware acceleration." s
           else s in
  State s WinUndefined 0 true false false [].

Definition defaultPort : Z := 4466.

(** The module body: what runs when main.ts is loaded. *)
Definition main (e : env) (cfg : config) : state :=
  if isHeadlessMode cfg then
    let s := Supervisor.start e
               ["-html-static-dir"; path_join e [resourcesPath e; "./frontend"]]
               Supervisor.init in
    let s := os_request (OpenURL ("http://localhost:" +:+ pretty defaultPort)) s in
    State s WinUndefined 0 false false false []
  else startElecron cfg Supervisor.init.

(** The handlers the code registers. *)

(** [app.on('ready', createWindow)] (line 358) *)
Definition on_ready (e : env) (cfg : config) (a : state) : state :=
  createWindow e cfg a.

(** [app.on('activate', ...)] (lines 359-363) *)
Definition on_activate (e : env) (cfg : config) (a : state) : state :=
  match mainWindow a with
  | WinNull => createWindow e cfg a
  | _ => a
  end.

(** [mainWindow.on('closed', ...)] (lines 333-335) *)
Definition on_closed (a : state) : state := set_mainWindow WinNull a.

(** [app.once('before-quit', ...)] (lines 367-372): it drops listeners and
    changes none of the variables. *)
Definition on_before_quit (a : state) : state := a.

(** [app.on('quit', quitServerProcess)] (line 375) *)
Definition on_quit (e : env) (a : state) : state :=
  with_sup (snd (quitServerProcess e (sup a))) a.

(** Electron's [app.quit()]: ['before-quit'] is emitted, the windows are
    closed (each emits ['closed']), then ['quit'] is emitted and the
    application terminates. *)
Definition app_quit (e : env) (a : state) : state :=
  let a := if electron a then on_before_quit a else a in
  let a := match mainWindow a with
           | WinOpen _ => on_closed a
           | _ => a
           end in
  let a := on_quit e a in
  State (sup a) (mainWindow a) (windows_created a) (electron a) (ready a) true (exited a).

(** [app.once('window-all-closed', app.quit)] (line 365) *)
Definition on_window_all_closed (e : env) (a : state) : state := app_quit e a.

Inductive child_event : Type :=
  | EvError (err : string)
  | EvStdout (data : chunk)
  | EvStderr (data : chunk)
  | EvClose (code : option Z) (sig : option string).

(** What happens to the application from outside: Electron finishes
    initialising, the application is activated (macOS), the user closes
    the window, a quit is requested (the menu's quit role), a child's
    stream or process reports something. *)
Inductive event : Type :=
  | AppReady
  | AppActivate
  | WindowClosed
  | AppQuit
  | ChildEvent (c : nat) (ev : child_event).

Definition observe (ev : child_event) (s : Supervisor.state) : Supervisor.state :=
  match ev with
  | EvError err => on_error err s
  | EvStdout data => on_stdout_data data s
  | EvStderr data => on_stderr_data data s
  | EvClose code sig => on_close code sig s
  end.

Definition is_close (ev : child_event) : bool :=
  match ev with
  | EvClose _ _ => true
  | _ => false
  end.

(** One event, delivered by Electron to the handlers registered for it.
    ['ready'] is emitted once.  The application has one window at most, so
    the window's ['closed'] is followed by the application's
    ['window-all-closed'].  After ['quit'] there is no application left to
    react. *)
Definition step (e : env) (cfg : config) (a : state) (ev : event) : state :=
  if quit a then a else
  match ev with
  | AppReady =>
      if ready a then a else
      let a := State (sup a) (mainWindow a) (windows_created a) (electron a)
                     true (quit a) (exited a) in
      if electron a then on_ready e cfg a else a
  | AppActivate => if electron a then on_activate e cfg a else a
  | WindowClosed =>
      match mainWindow a with
      | WinOpen _ => on_window_all_closed e (on_closed a)
      | _ => a
      end
  | AppQuit => app_quit e a
  | ChildEvent c ev =>
      let a := if is_close ev
               then State (sup a) (mainWindow a) (windows_created a) (electron a)
                          (ready a) (quit a) (exited a ++ [c])
               else a in
      if bool_decide (c ∈ attached (sup a))
      then with_sup (observe ev (sup a)) a
      else a
  end.

Definition run (e : env) (cfg : config) (evs : list event) : state :=
  fold_left (step e cfg) evs (main e cfg).

(** The packaged application with its window, and the headless one. *)
Definition windowed : config := Config false false false.

Definition headless : config := Config true false false.

(** The sessions that are live: handles for which the OS created a process
    that it has not yet reported as exited. *)
Definition is_live (e : env) (a : state) (c : nat) : bool :=
  match spawn_oracle e c with
  | Spawned _ => negb (bool_decide (c ∈ exited a))
  | SpawnFailed _ => false
  end.

Definition live_sessions (e : env) (a : state) : list nat :=
  List.filter (is_live e a) (seq 0 (spawn_count (sup a))).

(** What the runtime's order of events keeps true: a closed window means the
    application has quit, and a server has been started at most once, and
    not before ['ready']. *)
Definition single_start (a : state) : Prop :=
  (mainWindow a = WinNull → quit a = true)
  ∧ (spawn_count (sup a) ≤ 1)%nat
  ∧ (electron a = true → ready a = false → spawn_count (sup a) = 0%nat).

End App.

(** * The renderer-facing bridge (preload.ts) *)

Module Preload.

Section Bridge.

(** What a renderer callback returns. *)
Context {R : Type}.

(** A listener registered with [ipcRenderer.on]: it is called with the
    event and the message arguments. *)
Definition listener : Type := jsval → list jsval → R.

(** The [ipcRenderer] side: the messages transmitted to the main process
    and the subscriptions made. *)
Record ipc : Type := Ipc {
  transmitted : list (string * jsval);
  subscriptions : list (string * listener);
}.

Definition validChannels : list string :=
  ["update_available"; "locale"; "show_release_notes"].

(** [validChannels.includes(channel)]: the channel is whatever value the
    renderer passed. *)
Definition includes (l : list string) (v : jsval) : bool :=
  match v with
  | JStr c => existsb (String.eqb c) l
  | _ => false
  end.

(** The string a value is known to be once [includes] accepted it. *)
Definition channel_name (v : jsval) : string :=
  match v with
  | JStr c => c
  | _ => ""
  end.

Definition send (channel data : jsval) (st : ipc) : ipc :=
  if includes validChannels channel
  then Ipc (transmitted st ++ [(channel_name channel, data)]) (subscriptions st)
  else st.

Definition receive (channel : jsval) (func : list jsval → R) (st : ipc) : ipc :=
  if includes validChannels channel
  then Ipc (transmitted st)
           (subscriptions st ++ [(channel_name channel, fun _ args => func args)])
  else st.

End Bridge.

Arguments ipc : clear implicits.
Arguments listener : clear implicits.

End Preload.

(** * The application menu: [setMenu] (main.ts, lines 66-263) *)

Module Menu.

(** An entry of the menu template: a separator, an entry with a role, an
    entry whose [click] opens a URL in the browser, or a submenu (which
    has a label, a role, or both). *)
#[warnings="-register-all"]
Inductive menu_item : Type :=
  | Separator
  | RoleItem (label : string) (role : string)
  | LinkItem (label : string) (url : string)
  | Submenu (label : option string) (role : option string) (items : list menu_item).

Section Template.

(** [process.platform === 'darwin'], [app.name] and [i18n.t]. *)
Variables (isMac : bool) (appName : string) (t : string → string).

Definition sep : menu_item := Separator.
Definition aboutMenu : menu_item := RoleItem (t "About") "about".
Definition quitMenu : menu_item := RoleItem (t "Quit") "quit".
Definition selectAllMenu : menu_item := RoleItem (t "Select All") "selectAll".
Definition deleteMenu : menu_item := RoleItem (t "Delete") "delete".

Definition template : list menu_item :=
  (if isMac
   then [Submenu (Some appName) None
           [aboutMenu; sep;
            RoleItem (t "Services") "services"; sep;
            RoleItem (t "Hide Headlamp") "hide";
            RoleItem (t "Hide Others") "hideothers";
            RoleItem (t "Show All") "unhide"; sep;
            quitMenu]]
   else [])
  ++ [Submenu (Some (t "File")) None
        [if isMac then RoleItem (t "Close") "close" else quitMenu];
      Submenu (Some (t "Edit")) None
        ([RoleItem (t "Cut") "cut";
          RoleItem (t "Copy") "copy";
          RoleItem (t "Paste") "paste"]
         ++ (if isMac
             then [RoleItem (t "Paste and Match Style") "pasteAndMatchStyle";
                   deleteMenu; selectAllMenu; sep;
                   Submenu (Some (t "Speech")) None
                     [RoleItem (t "Start Speaking") "startspeaking";
                      RoleItem (t "Stop Speaking") "stopspeaking"]]
             else [deleteMenu; sep; selectAllMenu]));
      Submenu (Some (t "View")) None
        [RoleItem (t "Reload") "forcereload";
         RoleItem (t "Toggle Developer Tools") "toggledevtools"; sep;
         RoleItem (t "Reset Zoom") "resetzoom";
         RoleItem (t "Zoom In") "zoomin";
         RoleItem (t "Zoom Out") "zoomout"; sep;
         RoleItem (t "Toogle Fullscreen") "togglefullscreen"];
      Submenu (Some (t "Window")) None
        ([RoleItem (t "Minimize") "minimize"]
         ++ (if isMac
             then [sep; RoleItem (t "Bring All to Front") "front"; sep;
                   RoleItem (t "Window") "window"]
             else [RoleItem (t "Close") "close"]));
      Submenu None (Some "help")
        [LinkItem (t "Documentation") "https://kinvolk.io/docs/headlamp/latest";
         LinkItem (t "Open an Issue") "https://github.com/kinvolk/headlamp/issues";
         LinkItem (t "About") "https://github.com/kinvolk/headlamp"]].

End Template.

(** The roles of an entry and of everything below it. *)
Fixpoint roles (m : menu_item) : list string :=
  match m with
  | Separator => []
  | RoleItem _ r => [r]
  | LinkItem _ _ => []
  | Submenu _ r items => option_list r ++ List.flat_map roles items
  end.

(** The URLs an entry and everything below it can open. *)
Fixpoint links (m : menu_item) : list string :=
  match m with
  | Separator => []
  | RoleItem _ _ => []
  | LinkItem _ u => [u]
  | Submenu _ _ items => List.flat_map links items
  end.

(** An entry with every label put through [f]. *)
Fixpoint relabel (f : string → string) (m : menu_item) : menu_item :=
  match m with
  | Separator => Separator
  | RoleItem l r => RoleItem (f l) r
  | LinkItem l u => LinkItem (f l) u
  | Submenu l r items => Submenu (option_map f l) r (List.map (relabel f) items)
  end.

End Menu.

(** * Language and menu (main.ts, lines 273, 337-345 and 367-368) *)

Module Locale.

Import Menu.

(** The platform, the application's name and the translations of i18next:
    [translate lng key] is what [i18n.t(key)] answers while the language is
    [lng]. *)
Record env : Type := Env {
  platform : string;
  appName : string;
  translate : string → string → string;
}.

(** [i18n.language], the menu last given to [Menu.setApplicationMenu] and
    how often one was given, the number of ['languageChanged'] listeners on
    [i18n] and of ['locale'] listeners on [ipcMain]. *)
Record state : Type := State {
  language : string;
  menu : option (list menu_item);
  menu_builds : nat;
  listeners : nat;
  handlers : nat;
}.

(** [setMenu(i18n)] *)
Definition setMenu (e : env) (st : state) : state :=
  let isMac := String.eqb (platform e) "darwin" in
  State (language st)
        (Some (template isMac (appName e) (translate e (language st))))
        (S (menu_builds st)) (listeners st) (handlers st).

(** [startElecron], line 273: the first menu. *)
Definition start (e : env) (lng : string) : state :=
  setMenu e (State lng None 0 0 0).

(** [createWindow], lines 337-345: one more listener for
    ['languageChanged'] and one more for ['locale']. *)
Definition createWindow (st : state) : state :=
  State (language st) (menu st) (menu_builds st) (S (listeners st)) (S (handlers st)).

(** [i18n.changeLanguage(lng)]: the language is set and ['languageChanged']
    is emitted, which calls every listener. *)
Definition changeLanguage (e : env) (lng : string) (st : state) : state :=
  let st := State lng (menu st) (menu_builds st) (listeners st) (handlers st) in
  Nat.iter (listeners st) (setMenu e) st.

(** The ['locale'] listener, lines 341-345. *)
Definition on_locale (e : env) (newLocale : string) (st : state) : state :=
  if negb (String.eqb newLocale "") && negb (String.eqb (language st) newLocale)
  then changeLanguage e newLocale st
  else st.

(** A ['locale'] message reaches every listener registered for it. *)
Definition ipc_locale (e : env) (newLocale : string) (st : state) : state :=
  Nat.iter (handlers st) (on_locale e newLocale) st.

(** [app.once('before-quit', ...)], line 368: [i18n.off('languageChanged')]. *)
Definition before_quit (st : state) : state :=
  State (language st) (menu st) (menu_builds st) 0 (handlers st).

Inductive event : Type :=
  | CreateWindow
  | LocaleMessage (newLocale : string)
  | BeforeQuit.

Definition step (e : env) (st : state) (ev : event) : state :=
  match ev with
  | CreateWindow => createWindow st
  | LocaleMessage l => ipc_locale e l st
  | BeforeQuit => before_quit st
  end.

Definition run (e : env) (lng : string) (evs : list event) : state :=
  fold_left (step e) evs (start e lng).

Definition is_before_quit (ev : event) : bool :=
  match ev with
  | BeforeQuit => true
  | _ => false
  end.

(** Sample translations: the key tagged with the language. *)
Definition tagged (lng key : string) : string := lng +:+ ":" +:+ key.

End Locale.

(** * Readings of the traces used by the properties below *)

Module Readings.

Import Notifier.

(** The routes a pass requested, in order. *)
Definition requests (tr : list effect) : list string :=
  omap (fun ef => match ef with Requested route _ _ => Some route | _ => None end) tr.

(** A release source that answers the latest release but not the tag. *)
Definition github_without_tags (latest_name : string) : octokit :=
  fun route owner repo =>
    if String.eqb route latest_route then github latest_name route owner repo else None.

(** A renderer's calls of [desktopApi.send], one after the other. *)
Definition send_all {R : Type} (msgs : list (jsval * jsval)) (st : Preload.ipc R)
  : Preload.ipc R :=
  fold_left (fun st m => Preload.send (fst m) (snd m) st) msgs st.

(** The messages of a batch that the whitelist lets through. *)
Definition admitted (msgs : list (jsval * jsval)) : list (string * jsval) :=
  omap (fun m => if Preload.includes Preload.validChannels (fst m)
                 then Some (Preload.channel_name (fst m), snd m)
                 else None) msgs.

(** The server with pid [p] has been told to terminate (the process, and
    off win32 its group as well), or has reported its exit. *)
Definition stopped (e : Supervisor.env) (p : Z) (s : Supervisor.state) : Prop :=
  (Supervisor.ChildKill p ∈ Supervisor.os s
   ∧ (String.eqb (Supervisor.platform e) "win32" = false →
      Supervisor.ProcessKill (- p) ∈ Supervisor.os s))
  ∨ Supervisor.serverProcessQuit s = true.

(** What the order of events keeps true of the windows: a closed window
    means the application has quit, one window has been created at most,
    none before ['ready'] and none without [startElecron]; and where the
    window comes with a server, there are as many servers as windows. *)
Definition single_window (cfg : App.config) (a : App.state) : Prop :=
  (App.mainWindow a = App.WinNull → App.quit a = true)
  ∧ (App.windows_created a ≤ 1)%nat
  ∧ (App.ready a = false → App.windows_created a = 0%nat)
  ∧ (App.electron a = false → App.windows_created a = 0%nat)
  ∧ (App.isHeadlessMode cfg = false → App.isDev cfg = false →
     Supervisor.spawn_count (App.sup a) = App.windows_created a).

(** The handle the first [spawn] returns. *)
Definition first_child (e : Supervisor.env) : Supervisor.ChildProcess :=
  Supervisor.Child 0 (match Supervisor.spawn_oracle e 0 with
                      | Supervisor.Spawned p => Some p
                      | Supervisor.SpawnFailed _ => None
                      end).

End Readings.

(** * Properties *)

(** ** JavaScript values *)

Lemma strict_neq_true a b : strict_neq a b = true ↔ a ≠ b.
Proof. unfold strict_neq. apply bool_decide_eq_true. Qed.

Lemma strict_neq_false a b : strict_neq a b = false ↔ a = b.
Proof.
  unfold strict_neq. rewrite bool_decide_eq_false.
  split; [apply dec_stable | auto].
Qed.

Lemma truthy_JStr s : truthy (JStr s) = true ↔ s ≠ "".
Proof.
  simpl. rewrite negb_true_iff. split.
  - intros H ->. by rewrite String.eqb_refl in H.
  - intros H. by apply String.eqb_neq.
Qed.

(** ** The update notifier *)

Section NotifierProps.

Import Notifier.

Implicit Types (av : string) (oct : octokit) (s : gmap string jsval) (r t : release).

Local Abbreviation latest oct := (oct latest_route "ashu8912" "update-testing").
Local Abbreviation tagged oct av := (oct (tag_route av) "ashu8912" "update-testing").
Local Abbreviation set_version av s := (<["app_version" := JStr av]> s).

(** The whole pass, branch by branch. *)
Lemma pass_unfold av oct s :
  pass av oct s =
  match latest oct with
  | None => (None, State s [Requested latest_route "ashu8912" "update-testing"])
  | Some r =>
      let cmp := comparison_trace av r s in
      if negb (truthy (storedVersion s)) then
        (Some tt, State (set_version av s) (cmp ++ [Stored "app_version" (JStr av)]))
      else if strict_neq (storedVersion s) (JStr av) then
        match tagged oct av with
        | None =>
            (None, State s (cmp ++ [Requested (tag_route av) "ashu8912" "update-testing"]))
        | Some t =>
            (Some tt,
             State (set_version av s)
                   (cmp ++ [Requested (tag_route av) "ashu8912" "update-testing";
                            Sent ("show_release_notes", [("releaseNotes", body t)]);
                            Stored "app_version" (JStr av)]))
        end
      else (Some tt, State s cmp)
  end.
Proof.
  unfold pass, fetchRelease, comparison_trace, storedVersion.
  unfold mbind, M_bind, bind, request, store_get, console_log, send, store_set, emit, ret.
  cbn [store trace app].
  destruct (latest oct) as [r|]; [|reflexivity].
  cbn zeta.
  destruct (strict_neq (name r) (JStr av)); cbn [store trace app];
    (destruct (negb (truthy (default JUndefined (s !! "app_version")))); [reflexivity|]);
    (destruct (strict_neq (default JUndefined (s !! "app_version")) (JStr av)); [|reflexivity]);
    cbn [store trace app];
    destruct (tagged oct av); reflexivity.
Qed.

Lemma sent_app (l1 l2 : list effect) : sent (l1 ++ l2) = sent l1 ++ sent l2.
Proof. unfold sent. apply omap_app. Qed.

Lemma sent_comparison av r s :
  sent (comparison_trace av r s) =
  if strict_neq (name r) (JStr av)
  then [("update_available", [("downloadURL", html_url r)])]
  else [].
Proof. unfold comparison_trace. by destruct (strict_neq _ _). Qed.

Lemma notes_comparison av r s :
  signals_on "show_release_notes" (sent (comparison_trace av r s)) = [].
Proof. rewrite sent_comparison. by destruct (strict_neq _ _). Qed.

Lemma signals_on_app ch (l1 l2 : list signal) :
  signals_on ch (l1 ++ l2) = signals_on ch l1 ++ signals_on ch l2.
Proof. unfold signals_on. apply List.filter_app. Qed.

Lemma pass_trace_latest_failed av oct s :
  latest oct = None →
  pass_signals av oct s = [] ∧ pass_store av oct s = s ∧ pass_completed av oct s = false.
Proof.
  intros H. unfold pass_signals, pass_trace, pass_store, pass_completed.
  rewrite pass_unfold, H. done.
Qed.

(** The signals of a pass: those of the comparison, followed by at most
    one [show_release_notes], which needs a truthy marker that differs
    from the running version and an answer for the tag. *)
Lemma pass_signals_shape av oct s r :
  latest oct = Some r →
  pass_signals av oct s = sent (comparison_trace av r s)
  ∨ (∃ t, tagged oct av = Some t
          ∧ truthy (storedVersion s) = true
          ∧ storedVersion s ≠ JStr av
          ∧ pass_signals av oct s =
              sent (comparison_trace av r s)
              ++ [("show_release_notes", [("releaseNotes", body t)])]).
Proof.
  intros H. unfold pass_signals, pass_trace. rewrite pass_unfold, H. cbn zeta.
  destruct (truthy (storedVersion s)) eqn:Htr; cbn [negb].
  - destruct (strict_neq (storedVersion s) (JStr av)) eqn:Hne.
    + destruct (tagged oct av) as [t|] eqn:Ht; cbn [snd trace].
      * right. exists t. apply strict_neq_true in Hne.
        repeat split; try done. by rewrite sent_app.
      * left. rewrite sent_app. cbn. by rewrite app_nil_r.
    + left. reflexivity.
  - left. cbn [snd trace]. rewrite sent_app. cbn. by rewrite app_nil_r.
Qed.

Lemma update_comparison av r s :
  signals_on "update_available" (sent (comparison_trace av r s)) =
  sent (comparison_trace av r s).
Proof. rewrite sent_comparison. by destruct (strict_neq _ _). Qed.

(** A pass sends at most one [show_release_notes]. *)
Lemma notes_at_most_one av oct s :
  (length (signals_on "show_release_notes" (pass_signals av oct s)) ≤ 1)%nat.
Proof.
  destruct (latest oct) as [r|] eqn:H.
  - destruct (pass_signals_shape av oct s r H) as [-> | (t & _ & _ & _ & ->)].
    + rewrite notes_comparison. cbn. lia.
    + rewrite signals_on_app, notes_comparison. cbn. lia.
  - destruct (pass_trace_latest_failed av oct s H) as (-> & _). cbn. lia.
Qed.

(** Once the marker equals the running version, passes of that version
    send no release notes and leave the marker where it is. *)
Lemma marker_current_quiet av oct s :
  storedVersion s = JStr av →
  signals_on "show_release_notes" (pass_signals av oct s) = []
  ∧ storedVersion (pass_store av oct s) = JStr av.
Proof.
  intros Hs. destruct (latest oct) as [r|] eqn:H.
  - split.
    + destruct (pass_signals_shape av oct s r H) as [-> | (t & _ & _ & Hne & _)].
      * apply notes_comparison.
      * by destruct Hne.
    + unfold pass_store. rewrite pass_unfold, H. cbn zeta.
      destruct (negb (truthy (storedVersion s))); cbn [snd store].
      * unfold storedVersion. by rewrite lookup_insert_eq.
      * assert (strict_neq (storedVersion s) (JStr av) = false) as ->
          by by apply strict_neq_false.
        done.
  - destruct (pass_trace_latest_failed av oct s H) as (-> & -> & _). done.
Qed.

(** A pass that sends release notes moves the marker to its version. *)
Lemma notes_move_marker av oct s :
  signals_on "show_release_notes" (pass_signals av oct s) ≠ [] →
  storedVersion (pass_store av oct s) = JStr av.
Proof.
  intros Hn. destruct (latest oct) as [r|] eqn:H.
  - destruct (pass_signals_shape av oct s r H) as [E | (t & Ht & Htr & Hne & _)].
    + rewrite E, notes_comparison in Hn. done.
    + unfold pass_store. rewrite pass_unfold, H, Ht, Htr. cbn zeta. cbn [negb].
      apply strict_neq_true in Hne. rewrite Hne. cbn [snd store].
      unfold storedVersion. by rewrite lookup_insert_eq.
  - destruct (pass_trace_latest_failed av oct s H) as (E & _).
    rewrite E in Hn. done.
Qed.

Lemma run_passes_cons v oct rest s :
  fst (run_passes ((v, oct) :: rest) s) =
  (v, pass_signals v oct s) :: fst (run_passes rest (pass_store v oct s)).
Proof. cbn. by destruct (run_passes rest (pass_store v oct s)). Qed.

Lemma stores_app (l1 l2 : list effect) : stores (l1 ++ l2) = stores l1 ++ stores l2.
Proof. unfold stores. apply omap_app. Qed.

Lemma stores_comparison av r s : stores (comparison_trace av r s) = [].
Proof. unfold comparison_trace. by destruct (strict_neq _ _). Qed.

Lemma notes_shown_cons v sigs (tr : list (string * list signal)) :
  notes_shown_for v ((v, sigs) :: tr)
  = (length (signals_on "show_release_notes" sigs) + notes_shown_for v tr)%nat.
Proof. unfold notes_shown_for. cbn [List.map list_sum fst snd]. by rewrite String.eqb_refl. Qed.

Lemma same_version_quiet v (ocs : list octokit) s :
  storedVersion s = JStr v →
  notes_shown_for v (fst (run_passes (List.map (pair v) ocs) s)) = 0%nat.
Proof.
  revert s. induction ocs as [|oct ocs IH]; intros s Hs; [reflexivity|].
  cbn [List.map]. rewrite run_passes_cons, notes_shown_cons.
  destruct (marker_current_quiet v oct s Hs) as (-> & Hs').
  cbn [length]. apply (IH _ Hs').
Qed.

Lemma same_version_at_most_once v (ocs : list octokit) s :
  (notes_shown_for v (fst (run_passes (List.map (pair v) ocs) s)) ≤ 1)%nat.
Proof.
  revert s. induction ocs as [|oct ocs IH]; intros s; [cbn; lia|].
  cbn [List.map]. rewrite run_passes_cons, notes_shown_cons.
  pose proof (notes_at_most_one v oct s) as Hle.
  destruct (signals_on "show_release_notes" (pass_signals v oct s)) as [|sg l] eqn:E.
  - cbn [length]. apply IH.
  - rewrite same_version_quiet; [cbn [length] in *; lia|].
    apply notes_move_marker. by rewrite E.
Qed.

Lemma pass_stores av oct s :
  stores (pass_trace av oct s) = []
  ∨ stores (pass_trace av oct s) = [("app_version", JStr av)].
Proof.
  unfold pass_trace. rewrite pass_unfold.
  destruct (latest oct) as [r|]; [|by left]. cbn zeta.
  destruct (negb (truthy (storedVersion s))); cbn [snd trace].
  { right. by rewrite stores_app, stores_comparison. }
  destruct (strict_neq (storedVersion s) (JStr av)); cbn [snd trace].
  - destruct (tagged oct av); cbn [snd trace];
      rewrite stores_app, stores_comparison; [by right | by left].
  - left. apply stores_comparison.
Qed.

Lemma storedVersion_set av s : storedVersion (set_version av s) = JStr av.
Proof. unfold storedVersion. by rewrite lookup_insert_eq. Qed.

Lemma pass_completed_marker av oct s :
  pass_completed av oct s = true → storedVersion (pass_store av oct s) = JStr av.
Proof.
  unfold pass_completed, pass_store. rewrite pass_unfold.
  destruct (latest oct) as [r|]; [|by intros [[] [=]]%bool_decide_eq_true].
  cbn zeta.
  destruct (truthy (storedVersion s)); cbn [negb fst snd store];
    [|intros _; apply storedVersion_set].
  destruct (strict_neq (storedVersion s) (JStr av)) eqn:Hne; cbn [fst snd store].
  - destruct (tagged oct av); cbn [fst snd store].
    + intros _. apply storedVersion_set.
    + by intros [[] [=]]%bool_decide_eq_true.
  - intros _. by apply strict_neq_false in Hne.
Qed.

(** The scenarios of the specification: first run, upgrade, stale binary. *)
Example first_run :
  pass_signals "1.2.0" (github "1.2.0") ∅ = []
  ∧ pass_store "1.2.0" (github "1.2.0") ∅ !! "app_version" = Some (JStr "1.2.0").
Proof. vm_compute. by split. Qed.

Example upgrade :
  pass_signals "1.2.0" (github "1.2.0") {["app_version" := JStr "1.1.0"]}
    = [("show_release_notes",
        [("releaseNotes", JStr ("notes of " +:+ tag_route "1.2.0"))])]
  ∧ pass_store "1.2.0" (github "1.2.0") {["app_version" := JStr "1.1.0"]}
      !! "app_version" = Some (JStr "1.2.0").
Proof. vm_compute. by split. Qed.

Example stale_binary :
  pass_signals "1.2.0" (github "1.3.0") {["app_version" := JStr "1.2.0"]}
    = [("update_available",
        [("downloadURL",
          JStr "https://github.com/ashu8912/update-testing/releases/latest")])]
  ∧ pass_store "1.2.0" (github "1.3.0") {["app_version" := JStr "1.2.0"]}
      !! "app_version" = Some (JStr "1.2.0").
Proof. vm_compute. by split. Qed.

(** The falsy branch (lines 315-316). *)
Lemma falsy_branch av oct s r :
  latest oct = Some r →
  truthy (storedVersion s) = false →
  pass_trace av oct s
    = comparison_trace av r s ++ [Stored "app_version" (JStr av)]
  ∧ pass_store av oct s = set_version av s
  ∧ signals_on "show_release_notes" (pass_signals av oct s) = [].
Proof.
  intros H Hf.
  unfold pass_signals, pass_trace, pass_store. rewrite pass_unfold, H. cbn zeta.
  rewrite Hf. cbn [negb snd trace store].
  by rewrite sent_app, signals_on_app, notes_comparison.
Qed.

(** C1 (as amended).  After the latest-release comparison the pass branches
    on the value read from the store.  Absent or falsy: it writes the
    running version and sends no [show_release_notes].  Truthy and
    different from the running version: it requests the release tagged
    [v<running version>] and, given the answer, sends [show_release_notes]
    with that release's body and then writes the running version.  Truthy
    and equal to the running version: no [show_release_notes], no write. *)
Theorem notifier_store_branches av oct s r :
  latest oct = Some r →
  (truthy (storedVersion s) = false →
     pass_trace av oct s
       = comparison_trace av r s ++ [Stored "app_version" (JStr av)]
     ∧ pass_store av oct s = set_version av s
     ∧ signals_on "show_release_notes" (pass_signals av oct s) = [])
  ∧ (truthy (storedVersion s) = true → storedVersion s ≠ JStr av →
     ∀ t, tagged oct av = Some t →
       pass_trace av oct s
         = comparison_trace av r s
           ++ [Requested (tag_route av) "ashu8912" "update-testing";
               Sent ("show_release_notes", [("releaseNotes", body t)]);
               Stored "app_version" (JStr av)]
       ∧ pass_store av oct s = set_version av s
       ∧ signals_on "show_release_notes" (pass_signals av oct s)
           = [("show_release_notes", [("releaseNotes", body t)])])
  ∧ (truthy (storedVersion s) = true → storedVersion s = JStr av →
     pass_trace av oct s = comparison_trace av r s
     ∧ pass_store av oct s = s
     ∧ stores (pass_trace av oct s) = []
     ∧ signals_on "show_release_notes" (pass_signals av oct s) = []).
Proof.
  intros H.
  unfold pass_signals, pass_trace, pass_store. rewrite pass_unfold, H. cbn zeta.
  split; [|split].
  - intros ->. cbn [negb snd trace store].
    by rewrite sent_app, signals_on_app, notes_comparison.
  - intros -> Hne%strict_neq_true t Ht. rewrite Hne, Ht. cbn [negb snd trace store].
    by rewrite sent_app, signals_on_app, notes_comparison.
  - intros -> Heq%strict_neq_false. rewrite Heq. cbn [negb snd trace store].
    by rewrite stores_comparison, notes_comparison.
Qed.

(** C1, upgrade scenario: the marker holds 1.1.0, the application runs
    1.2.0 and the latest release is 1.2.0. *)
Lemma notifier_store_branches_witness :
  pass_trace "1.2.0" (github "1.2.0") {["app_version" := JStr "1.1.0"]}
    = comparison_trace "1.2.0"
        (Release (JStr "1.2.0")
                 (JStr "https://github.com/ashu8912/update-testing/releases/latest")
                 (JStr ("notes of " +:+ latest_route)))
        {["app_version" := JStr "1.1.0"]}
      ++ [Requested (tag_route "1.2.0") "ashu8912" "update-testing";
          Sent ("show_release_notes",
                [("releaseNotes", JStr ("notes of " +:+ tag_route "1.2.0"))]);
          Stored "app_version" (JStr "1.2.0")].
Proof.
  destruct (notifier_store_branches "1.2.0" (github "1.2.0")
              {["app_version" := JStr "1.1.0"]} _ eq_refl) as (_ & Hup & _).
  destruct (Hup eq_refl ltac:(discriminate) _ eq_refl) as (Htrace & _).
  exact Htrace.
Defined.

(** C1 as stated fails for a marker that is present but empty: it differs
    from the running version, and yet no [show_release_notes] is sent. *)
Lemma notifier_empty_marker_counterexample :
  ¬ (is_Some (({["app_version" := JStr ""]} : gmap string jsval) !! "app_version") →
     storedVersion {["app_version" := JStr ""]} ≠ JStr "1.2.0" →
     ∃ p, ("show_release_notes", p)
          ∈ pass_signals "1.2.0" (github "1.2.0") {["app_version" := JStr ""]}).
Proof.
  intros Hclaim.
  destruct Hclaim as (p & Hp); [by eexists | discriminate |].
  assert (pass_signals "1.2.0" (github "1.2.0") {["app_version" := JStr ""]} = [])
    as E by (vm_compute; reflexivity).
  rewrite E in Hp. by apply not_elem_of_nil in Hp.
Qed.

(** C2.  [update_available], carrying the latest release's URL, is sent
    exactly when the latest release's name is not the running version's
    string, whatever the store holds.  The test is inequality of values:
    for a name that is a string, inequality of the two strings. *)
Theorem update_available_iff_name_differs av oct s r :
  latest oct = Some r →
  ((∃ p, ("update_available", p) ∈ pass_signals av oct s) ↔ name r ≠ JStr av)
  ∧ (∀ n, name r = JStr n →
       ("update_available", [("downloadURL", html_url r)]) ∈ pass_signals av oct s
       ↔ n ≠ av)
  ∧ signals_on "update_available" (pass_signals av oct s)
      = if strict_neq (name r) (JStr av)
        then [("update_available", [("downloadURL", html_url r)])]
        else [].
Proof.
  intros H.
  assert (∀ p, ("update_available", p) ∈ pass_signals av oct s
               ↔ name r ≠ JStr av ∧ p = [("downloadURL", html_url r)]) as Hin.
  { intros p. rewrite <- strict_neq_true.
    destruct (pass_signals_shape av oct s r H) as [-> | (t & _ & _ & _ & ->)];
      [|rewrite elem_of_app]; rewrite sent_comparison;
      destruct (strict_neq (name r) (JStr av));
      rewrite ?list_elem_of_singleton, ?elem_of_nil.
    - split; [intros [= ->]; done | intros [_ ->]; done].
    - split; [done | intros [? _]; done].
    - split; [intros [[= ->] | [=]]; done | intros [_ ->]; by left].
    - split; [intros [[] | [=]] | intros [? _]; done]. }
  split; [|split].
  - split.
    + intros (p & Hp). by apply Hin in Hp as (? & _).
    + intros Hne. eexists. apply Hin. eauto.
  - intros n Hn. rewrite Hin, Hn. split.
    + intros (Hne & _) ->. by apply Hne.
    + intros Hne. split; [congruence | done].
  - destruct (pass_signals_shape av oct s r H) as [-> | (t & _ & _ & _ & ->)].
    + rewrite update_comparison. apply sent_comparison.
    + rewrite signals_on_app, update_comparison, sent_comparison.
      by destruct (strict_neq (name r) (JStr av)).
Qed.

(** C2, a latest release that is older than the running version: the
    marker already equals the running 1.3.0, the latest release is named
    1.2.0, and [update_available] is sent all the same. *)
Lemma update_available_iff_name_differs_witness :
  ("update_available",
   [("downloadURL", JStr "https://github.com/ashu8912/update-testing/releases/latest")])
  ∈ pass_signals "1.3.0" (github "1.2.0") {["app_version" := JStr "1.3.0"]}.
Proof.
  destruct (update_available_iff_name_differs "1.3.0" (github "1.2.0")
              {["app_version" := JStr "1.3.0"]} _ eq_refl) as (_ & Hstr & _).
  apply (Hstr "1.2.0" eq_refl). discriminate.
Defined.

(** C3 (as amended).  The notifier has no ordering of versions.  Every
    write of a pass puts the running version under [app_version]; a pass
    that runs to its end leaves the marker equal to its running version,
    be that newer or older than what was stored; and over any number of
    successive passes of one and the same running version
    [show_release_notes] is sent at most once. *)
Theorem marker_follows_running_version :
  (∀ av oct s k v,
     (k, v) ∈ stores (pass_trace av oct s) → k = "app_version" ∧ v = JStr av)
  ∧ (∀ av oct s,
       pass_completed av oct s = true → storedVersion (pass_store av oct s) = JStr av)
  ∧ (∀ v (ocs : list octokit) s,
       (notes_shown_for v (fst (run_passes (List.map (pair v) ocs) s)) ≤ 1)%nat).
Proof.
  split; [|split].
  - intros av oct s k v Hin.
    destruct (pass_stores av oct s) as [E | E]; rewrite E in Hin.
    + by apply not_elem_of_nil in Hin.
    + apply list_elem_of_singleton in Hin. by injection Hin.
  - apply pass_completed_marker.
  - apply same_version_at_most_once.
Qed.

(** C3, a downgrade: the marker holds 1.2.0 and the application that runs
    is 1.1.0; the pass completes and the marker goes back to 1.1.0. *)
Lemma marker_follows_running_version_witness :
  storedVersion (pass_store "1.1.0" (github "1.2.0") {["app_version" := JStr "1.2.0"]})
  = JStr "1.1.0".
Proof.
  destruct marker_follows_running_version as (_ & Hdone & _).
  apply Hdone. vm_compute. reflexivity.
Defined.

(** C3 as stated fails when 1.1.0 and 1.2.0 are run in turn over one
    store: the marker returns from 1.2.0 to 1.1.0, and the release notes of
    1.2.0 are shown twice. *)
Lemma marker_rollback_counterexample :
  marker_history [("1.1.0", github "1.2.0"); ("1.2.0", github "1.2.0");
                  ("1.1.0", github "1.2.0"); ("1.2.0", github "1.2.0")] ∅
  = [JStr "1.1.0"; JStr "1.2.0"; JStr "1.1.0"; JStr "1.2.0"]
  ∧ ¬ (notes_shown_for "1.2.0"
         (fst (run_passes [("1.1.0", github "1.2.0"); ("1.2.0", github "1.2.0");
                           ("1.1.0", github "1.2.0"); ("1.2.0", github "1.2.0")] ∅))
       ≤ 1)%nat.
Proof.
  split.
  - vm_compute. reflexivity.
  - assert (notes_shown_for "1.2.0"
              (fst (run_passes [("1.1.0", github "1.2.0"); ("1.2.0", github "1.2.0");
                                ("1.1.0", github "1.2.0"); ("1.2.0", github "1.2.0")] ∅))
            = 2%nat) as -> by (vm_compute; reflexivity).
    lia.
Qed.

(** C9.  A falsy value under [app_version] (the empty string, [null],
    [false], [0]) is handled exactly as a missing key: the pass sends the
    same signals and leaves the same store as it would without the key,
    that is, it writes the running version and sends no
    [show_release_notes], whether or not the stored value equals the
    running version. *)
Theorem falsy_marker_like_absent av oct s r :
  latest oct = Some r →
  truthy (storedVersion s) = false →
  pass_store av oct s = set_version av s
  ∧ signals_on "show_release_notes" (pass_signals av oct s) = []
  ∧ pass_signals av oct s = pass_signals av oct (delete "app_version" s)
  ∧ pass_store av oct s = pass_store av oct (delete "app_version" s).
Proof.
  intros H Hf.
  destruct (falsy_branch av oct s r H Hf) as (Ht & Hs & Hn).
  assert (truthy (storedVersion (delete "app_version" s)) = false) as Hf'.
  { unfold storedVersion. by rewrite lookup_delete_eq. }
  destruct (falsy_branch av oct (delete "app_version" s) r H Hf')
    as (Ht' & Hs' & _).
  repeat split; try done.
  - unfold pass_signals. rewrite Ht, Ht', !sent_app.
    f_equal. by rewrite !sent_comparison.
  - rewrite Hs, Hs'. by rewrite insert_delete_eq.
Qed.

(** C9, the empty string under [app_version] with 1.2.0 running. *)
Lemma falsy_marker_like_absent_witness :
  pass_store "1.2.0" (github "1.3.0") {["app_version" := JStr ""]}
    = <["app_version" := JStr "1.2.0"]> {["app_version" := JStr ""]}
  ∧ signals_on "show_release_notes"
      (pass_signals "1.2.0" (github "1.3.0") {["app_version" := JStr ""]}) = [].
Proof.
  destruct (falsy_marker_like_absent "1.2.0" (github "1.3.0")
              {["app_version" := JStr ""]} _ eq_refl) as (Hs & Hn & _).
  - vm_compute. reflexivity.
  - split; [exact Hs | exact Hn].
Defined.

End NotifierProps.

(** ** The supervisor *)

Section SupervisorProps.

Import Supervisor.

Implicit Types (e : env) (st : state) (c : ChildProcess) (d : chunk).

Lemma starts_with_spec needle hay :
  starts_with needle hay = true ↔ ∃ post, hay = needle +:+ post.
Proof.
  revert hay. induction needle as [|a needle IH]; intros hay.
  - cbn. split; [intros _; by exists hay | done].
  - destruct hay as [|b hay]; cbn.
    + split; [done | intros [post [=]]].
    + rewrite andb_true_iff, Ascii.eqb_eq, IH. split.
      * intros [-> [post ->]]. by exists post.
      * intros [post [= -> ->]]. split; [done | by exists post].
Qed.

Lemma contains_cons needle a hay :
  contains needle (String a hay)
  ↔ starts_with needle (String a hay) = true ∨ contains needle hay.
Proof.
  rewrite starts_with_spec. unfold contains. split.
  - intros ([|b pre] & post & E).
    + left. by exists post.
    + right. cbn in E. injection E as -> ->. by exists pre, post.
  - intros [[post E] | (pre & post & ->)].
    + by exists "", post.
    + by exists (String a pre), post.
Qed.

Lemma contains_empty needle :
  contains needle "" ↔ starts_with needle "" = true.
Proof.
  rewrite starts_with_spec. unfold contains. split.
  - intros ([|b pre] & post & E); [by exists post | discriminate].
  - intros [post E]. by exists "", post.
Qed.

Lemma index_from_found i needle hay :
  (0 ≤ i)%Z → contains needle hay → (0 ≤ index_from i needle hay)%Z.
Proof.
  revert i. induction hay as [|a hay IH]; intros i Hi Hc; cbn [index_from].
  - apply contains_empty in Hc. by rewrite Hc.
  - destruct (starts_with needle (String a hay)) eqn:Hs; [done|].
    apply contains_cons in Hc as [Hc | Hc]; [congruence|].
    apply IH; [lia | done].
Qed.

Lemma index_from_missing i needle hay :
  ¬ contains needle hay → index_from i needle hay = (-1)%Z.
Proof.
  revert i. induction hay as [|a hay IH]; intros i Hc; cbn [index_from].
  - destruct (starts_with needle "") eqn:Hs; [|done].
    destruct Hc. by apply contains_empty.
  - destruct (starts_with needle (String a hay)) eqn:Hs.
    + destruct Hc. apply contains_cons. by left.
    + apply IH. intros Hc'. apply Hc, contains_cons. by right.
Qed.

Lemma contains_or_not needle hay : contains needle hay ∨ ¬ contains needle hay.
Proof.
  induction hay as [|a hay IH].
  - rewrite contains_empty. destruct (starts_with needle ""); [by left | by right].
  - rewrite contains_cons.
    destruct (starts_with needle (String a hay)); [left; by left|].
    destruct IH as [IH | IH]; [left; by right | right; by intros [|]].
Qed.

(** [indexOf] answers [-1] exactly when the text does not occur. *)
Lemma indexOf_spec d needle :
  (indexOf d needle =? -1)%Z = false ↔ contains needle (chunk_text d).
Proof.
  unfold indexOf. rewrite Z.eqb_neq. split.
  - intros Hi. destruct (contains_or_not needle (chunk_text d)) as [|Hn]; [done|].
    by rewrite index_from_missing in Hi.
  - intros Hc. pose proof (index_from_found 0 needle (chunk_text d) ltac:(lia) Hc). lia.
Qed.

(** C7.  A chunk of the child's stderr is logged as informational when its
    text contains "Requesting", and as an error otherwise. *)
Theorem stderr_classification d st :
  (contains "Requesting" (chunk_text d) →
     on_stderr_data d st
     = write_log Info ("server process stderr: " +:+ chunk_text d) st)
  ∧ (¬ contains "Requesting" (chunk_text d) →
     on_stderr_data d st
     = write_log Error ("server process stderr: " +:+ chunk_text d) st).
Proof.
  unfold on_stderr_data. cbn zeta. split; intros Hc.
  - assert (chunk_truthy d = true) as ->.
    { destruct d as [b|t]; [done|]. cbn in *.
      destruct t; [|done]. by apply contains_empty in Hc. }
    apply indexOf_spec in Hc. by rewrite Hc.
  - assert ((indexOf d "Requesting" =? -1)%Z = true) as ->.
    { destruct (indexOf d "Requesting" =? -1)%Z eqn:E; [done|].
      by apply indexOf_spec in E. }
    by rewrite andb_false_r.
Qed.

(** C7 on the two chunks of the specification. *)
Lemma stderr_classification_witness :
  log (on_stderr_data (ChunkBuffer "Requesting: users") init)
    = [(Info, "server process stderr: Requesting: users")]
  ∧ log (on_stderr_data (ChunkBuffer "connection refused") init)
    = [(Error, "server process stderr: connection refused")].
Proof.
  destruct (stderr_classification (ChunkBuffer "Requesting: users") init) as (Hinfo & _).
  destruct (stderr_classification (ChunkBuffer "connection refused") init) as (_ & Herr).
  split.
  - rewrite Hinfo; [reflexivity|]. by exists "", ": users".
  - rewrite Herr; [reflexivity|].
    intros Hc. apply indexOf_spec with (d := ChunkBuffer "connection refused") in Hc.
    vm_compute in Hc. discriminate.
Defined.

(** C5.  The observer of the child's exit logs the exit, with its code and
    signal (the number in decimal, the signal's name, [null] where there
    is none), as informational when [intentionalQuit] is set and as an
    error when it is not; either way it sets [serverProcessQuit] and
    touches nothing else. *)
Theorem exit_classification (code : option Z) (sig : option string) st :
  log (on_close code sig st)
    = log st ++ [(if intentionalQuit st then Info else Error,
                  "server process process exited with code:"
                    +:+ match code with Some n => pretty n | None => "null" end
                    +:+ " signal:"
                    +:+ match sig with Some name => name | None => "null" end)]
  ∧ serverProcessQuit (on_close code sig st) = true
  ∧ intentionalQuit (on_close code sig st) = intentionalQuit st
  ∧ serverProcess (on_close code sig st) = serverProcess st
  ∧ os (on_close code sig st) = os st.
Proof.
  destruct st as [sp iq spq att n lg rq]. unfold on_close. cbn.
  destruct iq; destruct code, sig; cbn; repeat split.
Qed.

(** C5 on a crash with exit code 1, on a child killed by a signal before
    any stop, and on the exit that follows a stop. *)
Lemma exit_classification_witness :
  log (on_close (Some 1%Z) None (start (linux spawning) [] init))
    = [(Error, "server process process exited with code:1 signal:null")]
  ∧ log (on_close None (Some "SIGKILL") (start (linux spawning) [] init))
    = [(Error, "server process process exited with code:null signal:SIGKILL")]
  ∧ log (on_close (Some (-2)%Z) None
           (set_intentionalQuit true (start (linux spawning) [] init)))
    = [(Info, "server process process exited with code:-2 signal:null")].
Proof.
  destruct (exit_classification (Some 1%Z) None (start (linux spawning) [] init))
    as (H1 & _).
  destruct (exit_classification None (Some "SIGKILL") (start (linux spawning) [] init))
    as (H2 & _).
  destruct (exit_classification (Some (-2)%Z) None
              (set_intentionalQuit true (start (linux spawning) [] init)))
    as (H3 & _).
  rewrite H1, H2, H3. vm_compute. repeat split.
Defined.

(** [stop] when there is nothing to stop (lines 45-48). *)
Lemma quit_not_running e st :
  serverProcess st = None ∨ serverProcessQuit st = true →
  quitServerProcess e st
  = (Returned, write_log Error "server process already not running" st).
Proof.
  unfold quitServerProcess. intros [-> | ->]; [done|].
  by destruct (serverProcess st).
Qed.

(** The OS requests of one [stop] of a process with pid [p]. *)
Lemma quit_running e st c p :
  serverProcess st = Some c → serverProcessQuit st = false → pid c = Some p →
  quitServerProcess e st
  = (Returned,
     State None true false (attached st) (spawn_count st)
           (log st ++ [(Info, "stopping server process...")])
           (os st
            ++ (if String.eqb (platform e) "win32" then [] else [ProcessKill (- p)])
            ++ [StdinDestroy (cid c); ChildKill p])).
Proof.
  intros Hc Hq Hp. unfold quitServerProcess, process_kill_group, child_kill.
  rewrite Hc, Hq, Hp. unfold set_serverProcess, os_request, write_log, set_intentionalQuit.
  destruct st as [sp iq spq att n lg rq]. cbn in *. subst.
  destruct (String.eqb (platform e) "win32"); cbn; rewrite <- ?app_assoc; reflexivity.
Qed.

(** C4 (as amended).  [stop] without a session, or after the session
    reported its exit, only logs "already not running".  Otherwise, for a
    session whose process was created, it sets [intentionalQuit], signals
    the negated pid unless the platform is win32, closes the child's
    stdin, signals the child itself and forgets the handle.  A second
    [stop] right after it sends nothing to the OS and only logs "already
    not running": two calls send the signals of one, which are two (group,
    then child) off win32 and one on win32. *)
Theorem stop_idempotent e st :
  (serverProcess st = None ∨ serverProcessQuit st = true →
     quitServerProcess e st
     = (Returned, write_log Error "server process already not running" st))
  ∧ (∀ c p,
       serverProcess st = Some c → serverProcessQuit st = false → pid c = Some p →
       let st1 := snd (quitServerProcess e st) in
       let st2 := snd (quitServerProcess e st1) in
       fst (quitServerProcess e st) = Returned
       ∧ intentionalQuit st1 = true
       ∧ serverProcess st1 = None
       ∧ os st1 = os st
                  ++ (if String.eqb (platform e) "win32" then [] else [ProcessKill (- p)])
                  ++ [StdinDestroy (cid c); ChildKill p]
       ∧ os st2 = os st1
       ∧ log st2 = log st1 ++ [(Error, "server process already not running")]
       ∧ signals_of (os st2)
         = signals_of (os st)
           ++ (if String.eqb (platform e) "win32" then [] else [ProcessKill (- p)])
           ++ [ChildKill p]).
Proof.
  split; [apply quit_not_running|].
  intros c p Hc Hq Hp. cbn zeta.
  rewrite (quit_running e st c p Hc Hq Hp). cbn [fst snd].
  rewrite quit_not_running by (by left). cbn [snd].
  repeat split; try done.
  cbn [os write_log]. unfold signals_of. rewrite !List.filter_app.
  by destruct (String.eqb (platform e) "win32").
Qed.

(** C4 on a server started on Linux with pid 4242. *)
Lemma stop_idempotent_witness :
  signals_of (os (snd (quitServerProcess (linux spawning)
                         (snd (quitServerProcess (linux spawning)
                                 (start (linux spawning) [] init))))))
  = [ProcessKill (-4242)%Z; ChildKill 4242%Z].
Proof.
  destruct (stop_idempotent (linux spawning) (start (linux spawning) [] init))
    as (_ & Hrun).
  destruct (Hrun (Child 0 (Some 4242%Z)) 4242%Z eq_refl eq_refl eq_refl)
    as (_ & _ & _ & _ & _ & _ & Hsig).
  exact Hsig.
Defined.

(** C4 as stated fails off win32: two [stop]s of a running server send two
    termination signals, not exactly one. *)
Lemma stop_twice_counterexample :
  ¬ (length (signals_of
               (os (snd (quitServerProcess (linux spawning)
                           (snd (quitServerProcess (linux spawning)
                                   (start (linux spawning) [] init)))))))
     = 1%nat).
Proof. vm_compute. discriminate. Qed.

Lemma start_unfold e flags st :
  start e flags st
  = State (Some (Child (spawn_count st)
                       (match spawn_oracle e (spawn_count st) with
                        | Spawned p => Some p
                        | SpawnFailed _ => None
                        end)))
          (intentionalQuit st) (serverProcessQuit st)
          (attached st ++ [spawn_count st]) (S (spawn_count st)) (log st)
          (os st ++ [Spawn (path_join e [resourcesPath e; "./server"]) flags
                       (SpawnOptions true (negb (String.eqb (platform e) "win32")))]).
Proof.
  unfold start, startServer, spawn, attachServerEventHandlers, set_serverProcess.
  cbn. by destruct (String.eqb (platform e) "win32").
Qed.




End SupervisorProps.

(** ** The application *)

Section AppProps.

Import Supervisor App.


Implicit Types (e : env) (cfg : config) (a : state) (ev : event).

(** The headless start: the server gets the static directory of the
    packaged frontend, the browser is opened, no window exists. *)
Example headless_start :
  os (sup (main (linux spawning) headless))
    = [Spawn "/opt/Headlamp/resources/server"
             ["-html-static-dir"; "/opt/Headlamp/resources/frontend"]
             (SpawnOptions true true);
       OpenURL "http://localhost:4466"]
  ∧ mainWindow (main (linux spawning) headless) = WinUndefined
  ∧ serverProcess (sup (main (linux spawning) headless)) = Some (Child 0 (Some 4242%Z)).
Proof. vm_compute. by repeat split. Qed.

(** The exit of a child that has observers attached reaches [on_close]. *)
Lemma step_child_close e cfg a (c : nat) (code : option Z) (sig : option string) :
  quit a = false → c ∈ attached (sup a) →
  sup (step e cfg a (ChildEvent c (EvClose code sig))) = on_close code sig (sup a).
Proof.
  intros Hq Hin. unfold step. rewrite Hq. cbn [is_close sup].
  by rewrite bool_decide_eq_true_2.
Qed.

Lemma quit_spawn_count e (st : Supervisor.state) :
  spawn_count (snd (quitServerProcess e st)) = spawn_count st.
Proof.
  unfold quitServerProcess, process_kill_group, child_kill.
  destruct (serverProcess st) as [c|]; [|done].
  destruct (serverProcessQuit st); [done|].
  destruct (negb (String.eqb (platform e) "win32")); destruct (pid c); done.
Qed.

Lemma observe_spawn_count (cev : child_event) (st : Supervisor.state) :
  spawn_count (observe cev st) = spawn_count st.
Proof.
  destruct cev; cbn; try done.
  - unfold on_stderr_data. cbn zeta.
    by destruct (chunk_truthy data && negb (indexOf data "Requesting" =? -1)%Z).
  - unfold on_close. cbn zeta. by destruct (negb (intentionalQuit st)).
Qed.

Lemma app_quit_spec e a :
  spawn_count (sup (app_quit e a)) = spawn_count (sup a)
  ∧ quit (app_quit e a) = true
  ∧ ready (app_quit e a) = ready a
  ∧ electron (app_quit e a) = electron a.
Proof.
  destruct a as [s w n el rd q ex].
  unfold app_quit, on_quit, on_before_quit, on_closed. cbn.
  destruct el; destruct w; cbn; repeat split; apply quit_spawn_count.
Qed.

Lemma createWindow_spec e cfg a :
  spawn_count (sup (createWindow e cfg a))
    = (if isDev cfg then spawn_count (sup a) else S (spawn_count (sup a)))
  ∧ (∃ w, mainWindow (createWindow e cfg a) = WinOpen w)
  ∧ quit (createWindow e cfg a) = quit a
  ∧ ready (createWindow e cfg a) = ready a
  ∧ electron (createWindow e cfg a) = electron a.
Proof.
  unfold createWindow. cbn zeta.
  destruct (isDev cfg); cbn [negb]; [by repeat split; eauto|].
  rewrite start_unfold. cbn. by repeat split; eauto.
Qed.

Lemma main_single_start e cfg : single_start (main e cfg).
Proof.
  unfold main, startElecron, single_start.
  destruct (isHeadlessMode cfg); cbn zeta.
  - rewrite start_unfold. cbn. repeat split; done.
  - destruct (disableGPU cfg); cbn; repeat split; (done || lia).
Qed.

(** A step starts at most one server, and only where none was started. *)
Lemma step_single_start e cfg a ev :
  single_start a →
  single_start (step e cfg a ev)
  ∧ (spawn_count (sup (step e cfg a ev)) = spawn_count (sup a)
     ∨ (spawn_count (sup a) = 0%nat ∧ spawn_count (sup (step e cfg a ev)) = 1%nat)).
Proof.
  intros Hinv. pose proof Hinv as (Hwin & Hle & Hready). unfold step.
  destruct (quit a) eqn:Hq; [by split; [|left]|].
  destruct ev as [| | | |c cev].
  - destruct (ready a) eqn:Hr; [by split; [|left]|].
    destruct (electron a) eqn:He; cbn [electron].
    + specialize (Hready eq_refl eq_refl).
      unfold on_ready.
      match goal with |- context [createWindow e cfg ?b] =>
        destruct (createWindow_spec e cfg b) as (Hn & (w & Hw) & Hq' & Hr' & He')
      end.
      cbn [sup quit ready electron] in *. rewrite Hready in Hn.
      split.
      * unfold single_start. rewrite Hw, Hn, Hr'.
        repeat split; try done. destruct (isDev cfg); lia.
      * rewrite Hn, Hready. destruct (isDev cfg); [by left | by right].
    + split; [|by left]. unfold single_start. cbn. by repeat split.
  - destruct (electron a) eqn:He; [|by split; [|left]].
    unfold on_activate. destruct (mainWindow a) eqn:Hw; try (by split; [|left]).
    specialize (Hwin eq_refl). congruence.
  - destruct (mainWindow a) eqn:Hw; try (by split; [|left]).
    unfold on_window_all_closed.
    destruct (app_quit_spec e (on_closed a)) as (Hn & Hq' & Hr' & He').
    cbn [on_closed set_mainWindow sup ready electron] in *.
    split; [|by left].
    unfold single_start. rewrite Hn, Hq', Hr', He'. by repeat split.
  - destruct (app_quit_spec e a) as (Hn & Hq' & Hr' & He').
    split; [|by left].
    unfold single_start. rewrite Hn, Hq', Hr', He'. by repeat split.
  - assert (∀ b : state,
              mainWindow b = mainWindow a → quit b = quit a → ready b = ready a →
              electron b = electron a → spawn_count (sup b) = spawn_count (sup a) →
              single_start b) as Hsame.
    { intros b Hbw Hbq Hbr Hbe Hbn. unfold single_start.
      rewrite Hbw, Hbq, Hbr, Hbe, Hbn, Hq. by repeat split. }
    destruct (is_close cev); cbn [sup];
      destruct (bool_decide _); cbn [with_sup sup];
      (split; [apply Hsame; cbn; try done; apply observe_spawn_count
              | left; cbn; try done; apply observe_spawn_count]).
Qed.

Lemma run_snoc e cfg (evs : list event) ev :
  run e cfg (evs ++ [ev]) = step e cfg (run e cfg evs) ev.
Proof. unfold run. by rewrite fold_left_app. Qed.

Lemma run_single_start e cfg (evs : list event) : single_start (run e cfg evs).
Proof.
  induction evs as [|ev evs IH] using rev_ind.
  - apply main_single_start.
  - rewrite run_snoc. by apply step_single_start.
Qed.

Lemma live_sessions_bound e a :
  (length (live_sessions e a) ≤ spawn_count (sup a))%nat.
Proof.
  unfold live_sessions.
  etransitivity; [apply List.filter_length_le|]. by rewrite length_seq.
Qed.

(** C6.  Whatever happens to the application, at most one session is live
    at any point; a step creates a session only where none has ever been
    started, so never next to one that is still running. *)
Theorem single_live_session e cfg (evs : list event) :
  (length (live_sessions e (run e cfg evs)) ≤ 1)%nat
  ∧ (spawn_count (sup (run e cfg evs)) ≤ 1)%nat
  ∧ (∀ ev,
       spawn_count (sup (step e cfg (run e cfg evs) ev))
         ≠ spawn_count (sup (run e cfg evs)) →
       spawn_count (sup (run e cfg evs)) = 0%nat
       ∧ live_sessions e (run e cfg evs) = []).
Proof.
  pose proof (run_single_start e cfg evs) as Hinv.
  pose proof (live_sessions_bound e (run e cfg evs)) as Hlive.
  destruct Hinv as (Hwin & Hle & Hready).
  split; [lia|]. split; [done|].
  intros ev Hne.
  destruct (step_single_start e cfg (run e cfg evs) ev) as (_ & [Hsame | (H0 & _)]);
    [by repeat split | done |].
  split; [done|].
  rewrite H0 in Hlive. by destruct (live_sessions e (run e cfg evs)); [|cbn in Hlive; lia].
Qed.

(** C6 before ['ready']: that step starts the one server, and no session
    is live when it does. *)
Lemma single_live_session_witness :
  spawn_count (sup (run (linux spawning) windowed [])) = 0%nat
  ∧ live_sessions (linux spawning) (run (linux spawning) windowed []) = [].
Proof.
  destruct (single_live_session (linux spawning) windowed []) as (_ & _ & Hnew).
  apply (Hnew AppReady). vm_compute. lia.
Defined.

(** [createWindow] itself does not look at [serverProcess]: what keeps a
    second server from being started is that the application quits when its
    window is closed (line 365).  Were ['activate'] handled between the
    window's ['closed'] and that quit, a second server would run next to
    the first. *)
Remark createWindow_unguarded :
  live_sessions (linux spawning)
    (on_activate (linux spawning) windowed
       (on_closed (on_ready (linux spawning) windowed (main (linux spawning) windowed))))
  = [0; 1]%nat.
Proof. vm_compute. reflexivity. Qed.

End AppProps.

(** ** The bridge *)

Section PreloadProps.

Import Preload.

Context {R : Type}.

Implicit Types (channel data : jsval) (st : ipc R).

Lemma includes_validChannels channel :
  includes validChannels channel = true
  ↔ channel = JStr "update_available"
    ∨ channel = JStr "locale"
    ∨ channel = JStr "show_release_notes".
Proof.
  unfold includes, validChannels.
  destruct channel as [| | | |c|];
    try (split; [done | intros [|[|]]; done]).
  cbn [existsb]. rewrite !orb_true_iff, !String.eqb_eq. split.
  - intros [H | [H | [H | H]]]; [| | |done]; rewrite H; auto.
  - intros [[= H] | [[= H] | [= H]]]; auto.
Qed.

(** C10.  The bridge transmits a message, or subscribes a listener, exactly
    when the channel is one of 'update_available', 'locale' and
    'show_release_notes'; on that channel it transmits the data as given
    and subscribes the callback behind a wrapper that drops the event; for
    any other channel value [send] and [receive] change nothing. *)
Theorem bridge_whitelist channel data (func : list jsval → R) st :
  (send channel data st ≠ st
   ↔ channel = JStr "update_available"
     ∨ channel = JStr "locale"
     ∨ channel = JStr "show_release_notes")
  ∧ (receive channel func st ≠ st
     ↔ channel = JStr "update_available"
       ∨ channel = JStr "locale"
       ∨ channel = JStr "show_release_notes")
  ∧ (∀ c, channel = JStr c → includes validChannels channel = true →
       send channel data st = Ipc (transmitted st ++ [(c, data)]) (subscriptions st)
       ∧ receive channel func st
         = Ipc (transmitted st) (subscriptions st ++ [(c, fun _ args => func args)])).
Proof.
  rewrite <- includes_validChannels. unfold send, receive.
  destruct (includes validChannels channel) eqn:Hin.
  - split; [|split].
    + split; [done|]. intros _ Heq.
      apply (f_equal (λ x, length (transmitted x))) in Heq. cbn in Heq.
      rewrite length_app in Heq. cbn in Heq. lia.
    + split; [done|]. intros _ Heq.
      apply (f_equal (λ x, length (subscriptions x))) in Heq. cbn in Heq.
      rewrite length_app in Heq. cbn in Heq. lia.
    + by intros c -> _.
  - split; [|split]; [split; [done | discriminate]..|]. by intros c _ [=].
Qed.

End PreloadProps.

(** C10 on the 'locale' channel. *)
Lemma bridge_whitelist_witness :
  Preload.send (JStr "locale") (JStr "fr")
    (Preload.Ipc [] ([] : list (string * Preload.listener unit)))
  = Preload.Ipc [("locale", JStr "fr")] [].
Proof.
  destruct (bridge_whitelist (R := unit) (JStr "locale") (JStr "fr")
              (fun _ => tt) (Preload.Ipc [] []))
    as (_ & _ & Hfwd).
  destruct (Hfwd "locale" eq_refl eq_refl) as (Hsend & _).
  exact Hsend.
Defined.

(** * Further properties of the code *)

(** ** The update notifier *)

Section NotifierCoverage.

Import Notifier Readings.

Implicit Types (av : string) (oct : octokit) (s : gmap string jsval) (r t : release).

Local Abbreviation latest oct := (oct latest_route "ashu8912" "update-testing").
Local Abbreviation tagged oct av := (oct (tag_route av) "ashu8912" "update-testing").
Local Abbreviation set_version av s := (<["app_version" := JStr av]> s).

(** The store a pass leaves: the one it found, or that with the running
    version under [app_version]. *)
Lemma pass_store_cases av oct s :
  pass_store av oct s = s ∨ pass_store av oct s = set_version av s.
Proof.
  unfold pass_store. rewrite pass_unfold.
  destruct (latest oct) as [r|]; [|by left]. cbn zeta.
  destruct (negb (truthy (storedVersion s))); [by right|].
  destruct (strict_neq (storedVersion s) (JStr av)); [|by left].
  destruct (tagged oct av); [by right | by left].
Qed.



(** A pass that is cut short by a failed request has written nothing and
    has sent no release notes, so the next start finds the store as this
    one did and goes through the same steps again. *)
Theorem failed_pass_leaves_store av oct s :
  pass_completed av oct s = false →
  pass_store av oct s = s
  ∧ stores (pass_trace av oct s) = []
  ∧ signals_on "show_release_notes" (pass_signals av oct s) = []
  ∧ ∀ oct', pass av oct' (pass_store av oct s) = pass av oct' s.
Proof.
  intros Hc.
  assert (pass_store av oct s = s ∧ stores (pass_trace av oct s) = []
          ∧ signals_on "show_release_notes" (pass_signals av oct s) = [])
    as (Hs & Hw & Hn).
  { revert Hc. unfold pass_completed, pass_store, pass_signals, pass_trace.
    rewrite pass_unfold.
    destruct (latest oct) as [r|]; [|done]. cbn zeta.
    destruct (negb (truthy (storedVersion s))); cbn [fst snd store trace];
      [intros Hf%bool_decide_eq_false_1; destruct Hf; eauto|].
    destruct (strict_neq (storedVersion s) (JStr av)); cbn [fst snd store trace].
    - destruct (tagged oct av); cbn [fst snd store trace];
        [intros Hf%bool_decide_eq_false_1; destruct Hf; eauto|].
      intros _. rewrite stores_app, sent_app, signals_on_app.
      by rewrite stores_comparison, notes_comparison.
    - intros Hf%bool_decide_eq_false_1. destruct Hf; eauto. }
  repeat split; try done. intros oct'. by rewrite Hs.
Qed.

Lemma failed_pass_leaves_store_witness :
  pass_store "1.2.0" (github_without_tags "1.2.0") {["app_version" := JStr "1.1.0"]}
  = {["app_version" := JStr "1.1.0"]}.
Proof.
  destruct (failed_pass_leaves_store "1.2.0" (github_without_tags "1.2.0")
              {["app_version" := JStr "1.1.0"]}) as (Hs & _).
  - vm_compute. reflexivity.
  - exact Hs.
Defined.

Lemma marker_current_store av oct s :
  storedVersion s = JStr av → pass_store av oct s = s.
Proof.
  intros Hs. destruct (pass_store_cases av oct s) as [-> | ->]; [done|].
  apply insert_id. unfold storedVersion in Hs.
  by destruct (s !! "app_version") as [v|]; [cbn in Hs; subst|].
Qed.

(** After a pass that ran to its end, further passes of the same version
    change nothing in the store and send no release notes, whatever the
    release source answers them. *)
Theorem completed_pass_is_final av oct s :
  pass_completed av oct s = true →
  ∀ oct',
    pass_store av oct' (pass_store av oct s) = pass_store av oct s
    ∧ signals_on "show_release_notes" (pass_signals av oct' (pass_store av oct s)) = [].
Proof.
  intros Hc%pass_completed_marker oct'. split.
  - by apply marker_current_store.
  - by apply marker_current_quiet.
Qed.

Lemma completed_pass_is_final_witness :
  pass_store "1.2.0" (github "1.3.0")
    (pass_store "1.2.0" (github "1.2.0") {["app_version" := JStr "1.1.0"]})
  = pass_store "1.2.0" (github "1.2.0") {["app_version" := JStr "1.1.0"]}.
Proof.
  destruct (completed_pass_is_final "1.2.0" (github "1.2.0")
              {["app_version" := JStr "1.1.0"]}) with (oct' := github "1.3.0")
    as (Hs & _).
  - vm_compute. reflexivity.
  - exact Hs.
Defined.

(** A pass sends two signals at most: [update_available], if at all, and
    after it [show_release_notes], if at all. *)
Theorem signals_in_order av oct s :
  pass_signals av oct s
    = signals_on "update_available" (pass_signals av oct s)
      ++ signals_on "show_release_notes" (pass_signals av oct s)
  ∧ (length (signals_on "update_available" (pass_signals av oct s)) ≤ 1)%nat
  ∧ (length (signals_on "show_release_notes" (pass_signals av oct s)) ≤ 1)%nat.
Proof.
  split; [|split; [|apply notes_at_most_one]].
  - destruct (latest oct) as [r|] eqn:H.
    + destruct (pass_signals_shape av oct s r H) as [-> | (t & _ & _ & _ & ->)].
      * by rewrite update_comparison, notes_comparison, app_nil_r.
      * rewrite !signals_on_app, update_comparison, notes_comparison. cbn.
        by rewrite app_nil_r.
    + by destruct (pass_trace_latest_failed av oct s H) as (-> & _).
  - destruct (latest oct) as [r|] eqn:H.
    + destruct (pass_signals_shape av oct s r H) as [-> | (t & _ & _ & _ & ->)];
        rewrite ?signals_on_app, update_comparison, sent_comparison;
        destruct (strict_neq (name r) (JStr av)); cbn; lia.
    + destruct (pass_trace_latest_failed av oct s H) as (-> & _). cbn. lia.
Qed.

Lemma requests_app (l1 l2 : list effect) :
  requests (l1 ++ l2) = requests l1 ++ requests l2.
Proof. unfold requests. apply omap_app. Qed.

Lemma requests_comparison av r s : requests (comparison_trace av r s) = [latest_route].
Proof. unfold comparison_trace. by destruct (strict_neq _ _). Qed.

(** A pass asks for the latest release first, and for the release of the
    running version's tag only when the latest release was answered and
    the marker is truthy and differs from the running version; it makes no
    other request. *)
Theorem requests_of_pass av oct s :
  requests (pass_trace av oct s)
  = latest_route
    :: (if bool_decide (is_Some (latest oct))
           && truthy (storedVersion s)
           && strict_neq (storedVersion s) (JStr av)
        then [tag_route av]
        else []).
Proof.
  unfold pass_trace. rewrite pass_unfold.
  destruct (latest oct) as [r|]; [|done].
  rewrite bool_decide_eq_true_2 by eauto. cbn zeta. cbn [andb].
  destruct (truthy (storedVersion s)); cbn [negb andb snd trace].
  - destruct (strict_neq (storedVersion s) (JStr av)).
    + destruct (tagged oct av); cbn [snd trace];
        by rewrite requests_app, requests_comparison.
    + cbn [snd trace]. apply requests_comparison.
  - by rewrite requests_app, requests_comparison.
Qed.

(** Every signal the notifier sends goes out on a channel that the
    preload bridge lets the renderer subscribe to. *)
Theorem notifier_channels_whitelisted av oct s (sg : signal) :
  sg ∈ pass_signals av oct s →
  Preload.includes Preload.validChannels (JStr (fst sg)) = true.
Proof.
  destruct (latest oct) as [r|] eqn:H.
  - destruct (pass_signals_shape av oct s r H) as [-> | (t & _ & _ & _ & ->)];
      [|rewrite elem_of_app]; rewrite sent_comparison;
      destruct (strict_neq (name r) (JStr av));
      rewrite ?list_elem_of_singleton, ?elem_of_nil.
    + by intros ->.
    + done.
    + by intros [-> | ->].
    + by intros [[] | ->].
  - destruct (pass_trace_latest_failed av oct s H) as (-> & _).
    by intros ?%not_elem_of_nil.
Qed.

Lemma notifier_channels_whitelisted_witness :
  Preload.includes Preload.validChannels (JStr "show_release_notes") = true.
Proof.
  apply (notifier_channels_whitelisted "1.2.0" (github "1.2.0")
           {["app_version" := JStr "1.1.0"]}
           ("show_release_notes",
            [("releaseNotes", JStr ("notes of " +:+ tag_route "1.2.0"))])).
  vm_compute. apply list_elem_of_here.
Defined.

End NotifierCoverage.

(** ** The supervisor *)

Section SupervisorCoverage.

Import Supervisor.

Implicit Types (e : env) (st : state) (c : ChildProcess).

(** Started, then stopped: the server is spawned through the shell, with
    the given flags, detached exactly off win32; the stop then signals the
    negated pid exactly when the server was spawned detached, closes stdin,
    signals the process and forgets the handle. *)
Theorem start_then_stop e (flags : list string) st (p : Z) :
  spawn_oracle e (spawn_count st) = Spawned p →
  serverProcessQuit st = false →
  let detached := negb (String.eqb (platform e) "win32") in
  let st' := snd (quitServerProcess e (start e flags st)) in
  fst (quitServerProcess e (start e flags st)) = Returned
  ∧ os st'
    = os st
      ++ [Spawn (path_join e [resourcesPath e; "./server"]) flags
            (SpawnOptions true detached)]
      ++ (if detached then [ProcessKill (- p)] else [])
      ++ [StdinDestroy (spawn_count st); ChildKill p]
  ∧ serverProcess st' = None
  ∧ intentionalQuit st' = true.
Proof.
  intros Hsp Hq. cbn zeta.
  rewrite (quit_running e (start e flags st) (Child (spawn_count st) (Some p)) p).
  - rewrite start_unfold. cbn [fst snd os serverProcess intentionalQuit cid].
    repeat split. rewrite <- !app_assoc.
    by destruct (String.eqb (platform e) "win32").
  - rewrite start_unfold, Hsp. done.
  - rewrite start_unfold. done.
  - done.
Qed.

Lemma start_then_stop_witness :
  os (snd (quitServerProcess (windows spawning) (start (windows spawning) ["-v"] init)))
  = [Spawn "C:\Headlamp\resources\server" ["-v"] (SpawnOptions true false);
     StdinDestroy 0; ChildKill 4242%Z].
Proof.
  destruct (start_then_stop (windows spawning) ["-v"] init 4242%Z eq_refl eq_refl)
    as (_ & Hos & _).
  exact Hos.
Defined.

(** A stop of a handle for which no process was created sends no
    termination signal on any platform.  On win32 it returns and forgets
    the handle; elsewhere the call is left by an exception before the
    handle is forgotten, so that the next stop goes the same way. *)
Theorem stop_without_process e st c :
  serverProcess st = Some c → pid c = None → serverProcessQuit st = false →
  let st' := snd (quitServerProcess e st) in
  signals_of (os st') = signals_of (os st)
  ∧ intentionalQuit st' = true
  ∧ (if String.eqb (platform e) "win32"
     then fst (quitServerProcess e st) = Returned ∧ serverProcess st' = None
     else (∃ w, fst (quitServerProcess e st) = Thrown w)
          ∧ serverProcess st' = Some c
          ∧ quitServerProcess e st'
            = (fst (quitServerProcess e st),
               write_log Info "stopping server process..." st')).
Proof.
  intros Hc Hp Hq. destruct st as [sp iq spq att n lg rq]. cbn in Hc, Hq. subst.
  unfold quitServerProcess, process_kill_group, child_kill. cbn. rewrite Hp.
  destruct (String.eqb (platform e) "win32"); cbn; rewrite ?Hp; cbn.
  - unfold signals_of. rewrite List.filter_app. cbn. by rewrite app_nil_r.
  - repeat split; eauto.
Qed.

Lemma stop_without_process_witness :
  signals_of (os (snd (quitServerProcess (linux failing) (start (linux failing) [] init))))
  = [].
Proof.
  destruct (stop_without_process (linux failing) (start (linux failing) [] init)
              (Child 0 None) eq_refl eq_refl eq_refl) as (Hsig & _).
  exact Hsig.
Defined.

Lemma quit_sets_intentionalQuit e st c :
  serverProcess st = Some c → serverProcessQuit st = false →
  intentionalQuit (snd (quitServerProcess e st)) = true.
Proof.
  intros Hc Hq. unfold quitServerProcess, process_kill_group, child_kill.
  rewrite Hc, Hq.
  destruct (negb (String.eqb (platform e) "win32")); destruct (pid c); done.
Qed.

Lemma on_close_log (code : option Z) (sig : option string) st :
  log (on_close code sig st)
  = log st ++ [(if intentionalQuit st then Info else Error,
                "server process process exited with code:" +:+ show_code code
                  +:+ " signal:" +:+ show_signal sig)].
Proof. unfold on_close. cbn zeta. by destruct (intentionalQuit st). Qed.

(** The exit of a child that is observed after a stop of a session that
    had not reported its exit is logged as informational, whether or not
    the stop got as far as signalling. *)
Theorem exit_after_stop_is_info e st c (code : option Z) (sig : option string) :
  serverProcess st = Some c → serverProcessQuit st = false →
  last (log (on_close code sig (snd (quitServerProcess e st))))
  = Some (Info,
          "server process process exited with code:" +:+ show_code code
            +:+ " signal:" +:+ show_signal sig).
Proof.
  intros Hc Hq.
  rewrite on_close_log, (quit_sets_intentionalQuit e st c Hc Hq). apply last_snoc.
Qed.

Lemma exit_after_stop_is_info_witness :
  last (log (on_close None (Some "SIGTERM")
               (snd (quitServerProcess (linux spawning)
                       (start (linux spawning) [] init)))))
  = Some (Info, "server process process exited with code:null signal:SIGTERM").
Proof.
  exact (exit_after_stop_is_info (linux spawning) (start (linux spawning) [] init)
           (Child 0 (Some 4242%Z)) None (Some "SIGTERM") eq_refl eq_refl).
Defined.

Lemma observe_fields (cev : App.child_event) st :
  (∃ line, log (App.observe cev st) = log st ++ [line])
  ∧ os (App.observe cev st) = os st
  ∧ spawn_count (App.observe cev st) = spawn_count st
  ∧ serverProcess (App.observe cev st) = serverProcess st
  ∧ intentionalQuit (App.observe cev st) = intentionalQuit st
  ∧ attached (App.observe cev st) = attached st
  ∧ (serverProcessQuit st = true → serverProcessQuit (App.observe cev st) = true).
Proof.
  destruct st as [sp iq spq att n lg rq].
  destruct cev as [err | data | data | code sig]; cbn.
  - repeat split; eauto.
  - repeat split; eauto.
  - unfold on_stderr_data. cbn zeta.
    destruct (chunk_truthy data && negb (indexOf data "Requesting" =? -1)%Z);
      cbn; repeat split; eauto.
  - unfold on_close. cbn. destruct iq; cbn; repeat split; eauto.
Qed.

Lemma observe_flag (cev : App.child_event) st :
  serverProcessQuit (App.observe cev st) = serverProcessQuit st || App.is_close cev.
Proof.
  destruct st as [sp iq spq att n lg rq].
  destruct cev as [err | data | data | code sig]; cbn.
  - by rewrite orb_false_r.
  - by rewrite orb_false_r.
  - unfold on_stderr_data. cbn zeta.
    destruct (chunk_truthy data && negb (indexOf data "Requesting" =? -1)%Z);
      cbn; by rewrite orb_false_r.
  - unfold on_close. cbn. destruct iq; cbn; by rewrite orb_true_r.
Qed.

(** Each of the four observers writes exactly one log line (an error line
    with the cause for ['error'], an informational line with the text for
    stdout); none of them makes a request to the OS, starts a process or
    touches the handle or [intentionalQuit]; and [serverProcessQuit] is
    set by the observer of the exit and changed by no other. *)
Theorem observers_only_log (cev : App.child_event) st :
  (∃ line, log (App.observe cev st) = log st ++ [line])
  ∧ os (App.observe cev st) = os st
  ∧ spawn_count (App.observe cev st) = spawn_count st
  ∧ serverProcess (App.observe cev st) = serverProcess st
  ∧ intentionalQuit (App.observe cev st) = intentionalQuit st
  ∧ attached (App.observe cev st) = attached st
  ∧ serverProcessQuit (App.observe cev st) = serverProcessQuit st || App.is_close cev
  ∧ (∀ err : string,
       log (App.observe (App.EvError err) st)
       = log st ++ [(Error, "server process failed to start: " +:+ err)])
  ∧ (∀ data : chunk,
       log (App.observe (App.EvStdout data) st)
       = log st ++ [(Info, "server process stdout: " +:+ chunk_text data)]).
Proof.
  destruct (observe_fields cev st) as (Hlog & Hos & Hn & Hsp & Hiq & Hat & _).
  pose proof (observe_flag cev st) as Hflag.
  repeat split; done.
Qed.

End SupervisorCoverage.

(** ** The application *)

Section AppCoverage.

Import Supervisor App.

Implicit Types (e : env) (cfg : config) (a : state) (ev : event) (s : Supervisor.state).

Lemma createWindow_sup e cfg a :
  sup (createWindow e cfg a)
  = if isDev cfg then sup a else Supervisor.start e [] (sup a).
Proof. unfold createWindow. cbn zeta. by destruct (isDev cfg). Qed.

Lemma app_quit_sup e a :
  sup (app_quit e a) = snd (quitServerProcess e (sup a)).
Proof.
  unfold app_quit, on_quit, on_before_quit, on_closed.
  by destruct (electron a), (mainWindow a).
Qed.

(** What [start], [stop] and the observers all keep, every step keeps. *)
Lemma step_preserves (P : Supervisor.state → Prop) e cfg :
  (∀ s, P s → P (Supervisor.start e [] s)) →
  (∀ s, P s → P (snd (quitServerProcess e s))) →
  (∀ cev s, P s → P (observe cev s)) →
  ∀ a ev, P (sup a) → P (sup (step e cfg a ev)).
Proof.
  intros Hstart Hquit Hobs a ev HP. unfold step.
  destruct (quit a); [done|].
  destruct ev as [| | | |c cev].
  - destruct (ready a); [done|]. destruct (electron a); cbn [electron]; [|done].
    unfold on_ready. rewrite createWindow_sup. destruct (isDev cfg); cbn [sup]; auto.
  - destruct (electron a); [|done]. unfold on_activate.
    destruct (mainWindow a); try done.
    rewrite createWindow_sup. destruct (isDev cfg); auto.
  - destruct (mainWindow a); try done.
    unfold on_window_all_closed. rewrite app_quit_sup. cbn [on_closed set_mainWindow sup]. auto.
  - rewrite app_quit_sup. auto.
  - destruct (is_close cev); cbn [sup]; destruct (bool_decide _); cbn [with_sup sup]; auto.
Qed.

Lemma steps_preserve (P : Supervisor.state → Prop) e cfg :
  (∀ s, P s → P (Supervisor.start e [] s)) →
  (∀ s, P s → P (snd (quitServerProcess e s))) →
  (∀ cev s, P s → P (observe cev s)) →
  ∀ (evs : list event) a, P (sup a) → P (sup (fold_left (step e cfg) evs a)).
Proof.
  intros Hstart Hquit Hobs evs.
  induction evs as [|ev evs IH]; intros a HP; [done|].
  cbn. apply IH. by apply step_preserves.
Qed.

Lemma quit_flags e s :
  serverProcessQuit (snd (quitServerProcess e s)) = serverProcessQuit s
  ∧ (intentionalQuit s = true → intentionalQuit (snd (quitServerProcess e s)) = true).
Proof.
  unfold quitServerProcess, process_kill_group, child_kill.
  destruct (serverProcess s) as [c|]; [|done].
  destruct (serverProcessQuit s) eqn:Hq; [done|].
  destruct (negb (String.eqb (platform e) "win32")); destruct (pid c); done.
Qed.

(** The two flags are never reset: once [intentionalQuit] or
    [serverProcessQuit] is set, it stays set whatever events follow, so
    that every later exit is logged as requested and every later stop is
    the logged no-op. *)
Theorem flags_never_reset e cfg a (evs : list event) :
  (intentionalQuit (sup a) = true →
     intentionalQuit (sup (fold_left (step e cfg) evs a)) = true)
  ∧ (serverProcessQuit (sup a) = true →
     serverProcessQuit (sup (fold_left (step e cfg) evs a)) = true).
Proof.
  split; intros Hset.
  - apply (steps_preserve (λ s, intentionalQuit s = true) e cfg); [| | |done].
    + intros s Hs. by rewrite start_unfold.
    + intros s Hs. by apply quit_flags.
    + intros cev s Hs.
      by destruct (observe_fields cev s) as (_ & _ & _ & _ & -> & _).
  - apply (steps_preserve (λ s, serverProcessQuit s = true) e cfg); [| | |done].
    + intros s Hs. by rewrite start_unfold.
    + intros s Hs. by destruct (quit_flags e s) as (-> & _).
    + intros cev s Hs. by apply observe_fields.
Qed.

Lemma flags_never_reset_witness :
  intentionalQuit
    (sup (fold_left (step (linux spawning) windowed)
            [ChildEvent 0 (EvClose None (Some "SIGTERM")); AppActivate]
            (with_sup (snd (quitServerProcess (linux spawning)
                              (sup (run (linux spawning) windowed [AppReady]))))
                      (run (linux spawning) windowed [AppReady]))))
  = true.
Proof.
  apply (flags_never_reset (linux spawning) windowed). vm_compute. reflexivity.
Defined.

(** Once a child's exit has been observed, nothing the application does
    afterwards sends a termination signal: no pid that is gone is ever
    signalled. *)
Theorem no_signal_after_exit e cfg a (evs : list event) :
  serverProcessQuit (sup a) = true →
  signals_of (os (sup (fold_left (step e cfg) evs a))) = signals_of (os (sup a)).
Proof.
  intros Hq.
  apply (steps_preserve
           (λ s, serverProcessQuit s = true
                 ∧ signals_of (os s) = signals_of (os (sup a))) e cfg);
    [| | |by split].
  - intros s (Hs & Hos). rewrite start_unfold. cbn. split; [done|].
    unfold signals_of in *. rewrite List.filter_app. cbn. by rewrite app_nil_r.
  - intros s (Hs & Hos). rewrite quit_not_running by (by right). cbn. by split.
  - intros cev s (Hs & Hos).
    destruct (observe_fields cev s) as (_ & -> & _ & _ & _ & _ & Hkeep). auto.
Qed.

Lemma no_signal_after_exit_witness :
  signals_of
    (os (sup (fold_left (step (linux spawning) windowed) [AppActivate; AppQuit]
                (run (linux spawning) windowed
                   [AppReady; ChildEvent 0 (EvClose (Some 1%Z) None)]))))
  = [].
Proof.
  rewrite (no_signal_after_exit (linux spawning) windowed
             (run (linux spawning) windowed
                [AppReady; ChildEvent 0 (EvClose (Some 1%Z) None)])
             [AppActivate; AppQuit]);
    vm_compute; reflexivity.
Defined.

Lemma quit_os_extends e s :
  ∃ l, os (snd (quitServerProcess e s)) = os s ++ l.
Proof.
  unfold quitServerProcess, process_kill_group, child_kill.
  destruct (serverProcess s) as [c|]; [|by exists []; rewrite app_nil_r].
  destruct (serverProcessQuit s); [by exists []; rewrite app_nil_r|].
  destruct (negb (String.eqb (platform e) "win32")); destruct (pid c); cbn;
    rewrite <- ?app_assoc; eauto.
  by exists []; rewrite app_nil_r.
Qed.

(** In development mode the window comes without a server: whatever
    happens, the application makes no request to the OS (no spawn, no
    signal) and holds no handle. *)
Theorem dev_mode_never_spawns e cfg (evs : list event) :
  isHeadlessMode cfg = false → isDev cfg = true →
  os (sup (run e cfg evs)) = []
  ∧ serverProcess (sup (run e cfg evs)) = None
  ∧ spawn_count (sup (run e cfg evs)) = 0%nat.
Proof.
  intros Hh Hd.
  enough (serverProcess (sup (run e cfg evs)) = None
          ∧ attached (sup (run e cfg evs)) = []
          ∧ os (sup (run e cfg evs)) = []
          ∧ spawn_count (sup (run e cfg evs)) = 0%nat)
    as (Hsp & _ & Hos & Hn) by done.
  induction evs as [|ev evs IH] using rev_ind.
  - unfold run, main, startElecron. cbn. rewrite Hh. by destruct (disableGPU cfg).
  - rewrite run_snoc. destruct IH as (Hsp & Hat & Hos & Hn).
    set (a := run e cfg evs) in *. unfold step.
    destruct (quit a); [done|].
    assert (∀ b, sup (app_quit e b) = snd (quitServerProcess e (sup b))) as Hq
      by apply app_quit_sup.
    destruct ev as [| | | |c cev].
    + destruct (ready a); [done|]. destruct (electron a); cbn [electron]; [|done].
      unfold on_ready. by rewrite createWindow_sup, Hd.
    + destruct (electron a); [|done]. unfold on_activate.
      destruct (mainWindow a); try done. by rewrite createWindow_sup, Hd.
    + destruct (mainWindow a); try done. unfold on_window_all_closed.
      rewrite Hq. cbn [on_closed set_mainWindow sup].
      by rewrite quit_not_running by (by left).
    + rewrite Hq. by rewrite quit_not_running by (by left).
    + destruct (is_close cev); cbn [sup]; rewrite Hat;
        by rewrite bool_decide_eq_false_2 by apply not_elem_of_nil.
Qed.

Lemma dev_mode_never_spawns_witness :
  os (sup (run (linux spawning) (Config false false true)
             [AppReady; AppActivate; WindowClosed])) = [].
Proof.
  destruct (dev_mode_never_spawns (linux spawning) (Config false false true)
              [AppReady; AppActivate; WindowClosed] eq_refl eq_refl) as (Hos & _).
  exact Hos.
Defined.

(** In headless mode the server is started once, when the module is
    loaded, with the static directory of the packaged frontend, and the
    browser is then pointed at the local port; no window is ever created
    and no second server is ever started, whatever happens afterwards. *)
Theorem headless_never_opens_window e cfg (evs : list event) :
  isHeadlessMode cfg = true →
  mainWindow (run e cfg evs) = WinUndefined
  ∧ windows_created (run e cfg evs) = 0%nat
  ∧ spawn_count (sup (run e cfg evs)) = 1%nat
  ∧ take 2 (os (sup (run e cfg evs)))
    = [Spawn (path_join e [resourcesPath e; "./server"])
             ["-html-static-dir"; path_join e [resourcesPath e; "./frontend"]]
             (SpawnOptions true (negb (String.eqb (platform e) "win32")));
       OpenURL "http://localhost:4466"].
Proof.
  intros Hh.
  set (first_two :=
         [Spawn (path_join e [resourcesPath e; "./server"])
                ["-html-static-dir"; path_join e [resourcesPath e; "./frontend"]]
                (SpawnOptions true (negb (String.eqb (platform e) "win32")));
          OpenURL "http://localhost:4466"]).
  enough (electron (run e cfg evs) = false
          ∧ mainWindow (run e cfg evs) = WinUndefined
          ∧ windows_created (run e cfg evs) = 0%nat
          ∧ spawn_count (sup (run e cfg evs)) = 1%nat
          ∧ ∃ l, os (sup (run e cfg evs)) = first_two ++ l)
    as (_ & Hw & Hn & Hc & l & Hos) by (rewrite Hos; done).
  induction evs as [|ev evs IH] using rev_ind.
  - unfold run, main. cbn [fold_left]. rewrite Hh. cbn zeta.
    rewrite start_unfold. cbn. repeat split. by exists [].
  - rewrite run_snoc. destruct IH as (He & Hw & Hn & Hc & l & Hos).
    set (a := run e cfg evs) in *. unfold step.
    destruct (quit a); [by eauto 10|].
    assert (∀ b,
              electron b = false → mainWindow b = WinUndefined →
              windows_created b = 0%nat → sup b = sup a ∨ (∃ cev, sup b = observe cev (sup a)) →
              electron b = false ∧ mainWindow b = WinUndefined
              ∧ windows_created b = 0%nat ∧ spawn_count (sup b) = 1%nat
              ∧ ∃ l, os (sup b) = first_two ++ l) as Hsame.
    { intros b ? ? ? [-> | [cev ->]]; [by eauto 10|].
      destruct (observe_fields cev (sup a)) as (_ & -> & -> & _). by eauto 10. }
    assert (∀ b,
              electron b = false → mainWindow b = WinUndefined →
              windows_created b = 0%nat → sup b = sup a →
              electron (app_quit e b) = false ∧ mainWindow (app_quit e b) = WinUndefined
              ∧ windows_created (app_quit e b) = 0%nat
              ∧ spawn_count (sup (app_quit e b)) = 1%nat
              ∧ ∃ l, os (sup (app_quit e b)) = first_two ++ l) as Hquit.
    { intros b Hbe Hbw Hbn Hbs.
      destruct (app_quit_spec e b) as (Hqn & _ & _ & Hqe).
      rewrite Hqn, Hqe, Hbs. repeat split; try done.
      - unfold app_quit, on_quit, on_before_quit. by rewrite Hbe, Hbw.
      - unfold app_quit, on_quit, on_before_quit. by rewrite Hbe, Hbw.
      - rewrite app_quit_sup, Hbs.
        destruct (quit_os_extends e (sup a)) as (l' & ->).
        rewrite Hos, <- app_assoc. eauto. }
    destruct ev as [| | | |c cev].
    + destruct (ready a); [by eauto 10|]. rewrite He.
      cbn [sup mainWindow windows_created electron]. by eauto 10.
    + rewrite He. by eauto 10.
    + rewrite Hw. by eauto 10.
    + by apply Hquit.
    + destruct (is_close cev); cbn [sup]; destruct (bool_decide _);
        apply Hsame; cbn; eauto.
Qed.

Lemma headless_never_opens_window_witness :
  mainWindow (run (linux spawning) headless [AppReady; AppActivate; WindowClosed])
  = WinUndefined.
Proof.
  destruct (headless_never_opens_window (linux spawning) headless
              [AppReady; AppActivate; WindowClosed] eq_refl) as (Hw & _).
  exact Hw.
Defined.

Lemma quit_stops e s (p : Z) :
  serverProcess s = Some (Child 0 (Some p)) →
  Readings.stopped e p (snd (quitServerProcess e s)).
Proof.
  intros Hc. unfold Readings.stopped.
  destruct (serverProcessQuit s) eqn:Hq.
  - right. by destruct (quit_flags e s) as (-> & _).
  - left. rewrite (quit_running e s _ p Hc Hq eq_refl). cbn [snd os]. split.
    + rewrite !elem_of_app. right. right. apply list_elem_of_further, list_elem_of_here.
    + intros ->. rewrite !elem_of_app. right. left. apply list_elem_of_here.
Qed.

(** While the application runs, the one server it has started is the one
    [serverProcess] refers to; once it has quit, that server has been told
    to terminate or had reported its exit before. *)
Lemma run_keeps_handle e cfg (evs : list event) :
  spawn_count (sup (run e cfg evs)) = 1%nat →
  (quit (run e cfg evs) = false →
     serverProcess (sup (run e cfg evs)) = Some (Readings.first_child e))
  ∧ (quit (run e cfg evs) = true →
     ∀ p, spawn_oracle e 0 = Spawned p →
          Readings.stopped e p (sup (run e cfg evs))).
Proof.
  induction evs as [|ev evs IH] using rev_ind.
  - unfold run, main. cbn [fold_left].
    destruct (isHeadlessMode cfg).
    + cbn zeta. rewrite start_unfold. cbn. by intros _.
    + unfold startElecron. cbn. destruct (disableGPU cfg); cbn; by intros [=].
  - rewrite run_snoc.
    pose proof (run_single_start e cfg evs) as (Hwin & Hle & Hready).
    pose proof (run_single_start e cfg (evs ++ [ev])) as (_ & Hle' & _).
    rewrite run_snoc in Hle'.
    set (a := run e cfg evs) in *.
    assert (∀ b, quit b = quit a → sup b = sup a →
                 spawn_count (sup b) = 1%nat →
                 (quit b = false → serverProcess (sup b) = Some (Readings.first_child e))
                 ∧ (quit b = true →
                    ∀ p, spawn_oracle e 0 = Spawned p → Readings.stopped e p (sup b)))
      as Hsame.
    { intros b -> -> Hn. by apply IH. }
    assert (∀ b, quit b = quit a → (∃ cev, sup b = observe cev (sup a)) →
                 spawn_count (sup b) = 1%nat →
                 (quit b = false → serverProcess (sup b) = Some (Readings.first_child e))
                 ∧ (quit b = true →
                    ∀ p, spawn_oracle e 0 = Spawned p → Readings.stopped e p (sup b)))
      as Hobs.
    { intros b Hbq (cev & Hbs) Hn. rewrite Hbq, Hbs in *.
      destruct (observe_fields cev (sup a)) as (_ & Hos & Hcnt & Hsp & _ & _ & Hflag).
      rewrite Hcnt in Hn. destruct (IH Hn) as (IH1 & IH2). split.
      - intros Hq. rewrite Hsp. auto.
      - intros Hq p Hp. destruct (IH2 Hq p Hp) as [Hsig | Hex].
        + left. by rewrite Hos.
        + right. auto. }
    assert (∀ b, quit a = false → quit b = false → sup b = sup a →
                 spawn_count (sup (createWindow e cfg b)) = 1%nat →
                 (quit (createWindow e cfg b) = false →
                  serverProcess (sup (createWindow e cfg b))
                  = Some (Readings.first_child e))
                 ∧ (quit (createWindow e cfg b) = true →
                    ∀ p, spawn_oracle e 0 = Spawned p →
                         Readings.stopped e p (sup (createWindow e cfg b))))
      as Hcreate.
    { intros b Hqa Hbq Hbs.
      destruct (createWindow_spec e cfg b) as (_ & _ & Hq' & _).
      rewrite createWindow_sup, Hq', Hbq, Hbs.
      destruct (isDev cfg).
      - intros Hn. split; [|done]. intros _. by apply IH.
      - rewrite start_unfold. cbn. intros [= Hn]. split; [|done].
        intros _. unfold Readings.first_child. by rewrite Hn. }
    assert (∀ b, sup b = sup a → quit a = false →
                 spawn_count (sup (app_quit e b)) = 1%nat →
                 (quit (app_quit e b) = false →
                  serverProcess (sup (app_quit e b)) = Some (Readings.first_child e))
                 ∧ (quit (app_quit e b) = true →
                    ∀ p, spawn_oracle e 0 = Spawned p →
                         Readings.stopped e p (sup (app_quit e b))))
      as Hquit.
    { intros b Hbs Hqa.
      destruct (app_quit_spec e b) as (Hn' & Hq' & _).
      rewrite Hn', Hq', app_quit_sup, Hbs. intros Hn. split; [done|].
      intros _ p Hp. apply quit_stops.
      destruct (IH Hn) as (IH1 & _). rewrite (IH1 Hqa).
      unfold Readings.first_child. by rewrite Hp. }
    unfold step. destruct (quit a) eqn:Hqa; [by apply Hsame|].
    destruct ev as [| | | |c cev].
    + destruct (ready a); [by apply Hsame|].
      destruct (electron a); cbn [electron]; [|by apply Hsame].
      unfold on_ready. by apply Hcreate.
    + destruct (electron a); [|by apply Hsame]. unfold on_activate.
      destruct (mainWindow a); try (by apply Hsame). by apply Hcreate.
    + destruct (mainWindow a); try (by apply Hsame).
      unfold on_window_all_closed. by apply Hquit.
    + by apply Hquit.
    + destruct (is_close cev); cbn [sup]; destruct (bool_decide _);
        solve [apply Hsame; cbn; done | apply Hobs; cbn; eauto].
Qed.

Lemma quit_attached e s :
  attached (snd (quitServerProcess e s)) = attached s.
Proof.
  unfold quitServerProcess, process_kill_group, child_kill.
  destruct (serverProcess s) as [c|]; [|done].
  destruct (serverProcessQuit s); [done|].
  destruct (negb (String.eqb (platform e) "win32")); destruct (pid c); done.
Qed.

Lemma app_quit_exited e a : exited (app_quit e a) = exited a.
Proof.
  unfold app_quit, on_quit, on_before_quit, on_closed.
  by destruct (electron a), (mainWindow a).
Qed.

Lemma createWindow_exited e cfg a : exited (createWindow e cfg a) = exited a.
Proof. unfold createWindow. cbn zeta. by destruct (isDev cfg). Qed.

(** The observers are attached to the first handle only, and
    [serverProcessQuit] is set only once that handle's process has been
    reported as exited. *)
Lemma run_exit_reported e cfg (evs : list event) :
  (∀ c, c ∈ attached (sup (run e cfg evs)) → c = 0%nat)
  ∧ (serverProcessQuit (sup (run e cfg evs)) = true → 0%nat ∈ exited (run e cfg evs)).
Proof.
  induction evs as [|ev evs IH] using rev_ind.
  - unfold run, main. cbn [fold_left].
    destruct (isHeadlessMode cfg).
    + cbn zeta. rewrite start_unfold. cbn. split; [|done].
      intros c Hc. by apply list_elem_of_singleton in Hc.
    + unfold startElecron. destruct (disableGPU cfg); cbn; split; try done;
        by intros c ?%not_elem_of_nil.
  - rewrite run_snoc.
    pose proof (run_single_start e cfg (evs ++ [ev])) as (_ & Hle' & _).
    rewrite run_snoc in Hle'.
    destruct IH as (Hat & Hex). set (a := run e cfg evs) in *.
    assert (∀ b, sup b = sup a → exited b = exited a →
                 (∀ c, c ∈ attached (sup b) → c = 0%nat)
                 ∧ (serverProcessQuit (sup b) = true → 0%nat ∈ exited b)) as Hsame.
    { intros b -> ->. by split. }
    assert (∀ b, sup b = sup a → exited b = exited a →
                 (spawn_count (sup (createWindow e cfg b)) ≤ 1)%nat →
                 (∀ c, c ∈ attached (sup (createWindow e cfg b)) → c = 0%nat)
                 ∧ (serverProcessQuit (sup (createWindow e cfg b)) = true →
                    0%nat ∈ exited (createWindow e cfg b))) as Hcreate.
    { intros b Hbs Hbe. rewrite createWindow_sup, createWindow_exited, Hbs, Hbe.
      destruct (isDev cfg); [by split|].
      rewrite start_unfold. cbn. intros Hn. split; [|done].
      intros c [Hc | Hc%list_elem_of_singleton]%elem_of_app; [auto | lia]. }
    assert (∀ b, sup b = sup a → exited b = exited a →
                 (∀ c, c ∈ attached (sup (app_quit e b)) → c = 0%nat)
                 ∧ (serverProcessQuit (sup (app_quit e b)) = true →
                    0%nat ∈ exited (app_quit e b))) as Hquit.
    { intros b Hbs Hbe. rewrite app_quit_sup, app_quit_exited, Hbs, Hbe, quit_attached.
      by destruct (quit_flags e (sup a)) as (-> & _). }
    revert Hle'. unfold step. destruct (quit a); [by intros; apply Hsame|].
    destruct ev as [| | | |c cev].
    + destruct (ready a); [by intros; apply Hsame|].
      destruct (electron a); cbn [electron]; [|by intros; apply Hsame].
      unfold on_ready. by apply Hcreate.
    + destruct (electron a); [|by intros; apply Hsame]. unfold on_activate.
      destruct (mainWindow a); try (by intros; apply Hsame). by apply Hcreate.
    + destruct (mainWindow a); try (by intros; apply Hsame).
      unfold on_window_all_closed. intros _. by apply Hquit.
    + intros _. by apply Hquit.
    + intros _.
      destruct (is_close cev) eqn:Hclose; cbn [sup exited];
        destruct (bool_decide (c ∈ attached (sup a))) eqn:Hin;
        cbn [with_sup sup exited].
      * apply bool_decide_eq_true in Hin. pose proof (Hat c Hin) as ->.
        destruct (observe_fields cev (sup a)) as (_ & _ & _ & _ & _ & -> & _).
        split; [done|]. intros _. apply elem_of_app. right. apply list_elem_of_here.
      * split; [done|]. intros Hq. apply elem_of_app. left. auto.
      * destruct (observe_fields cev (sup a)) as (_ & _ & _ & _ & _ & -> & _).
        split; [done|]. rewrite observe_flag, Hclose, orb_false_r. done.
      * by split.
Qed.

(** Quitting stops the server: after ['quit'], a server that the
    application had started has been sent the termination signal (and,
    off win32, its process group as well), unless its process had been
    reported as exited before. *)
Theorem quit_stops_server e cfg (evs : list event) (p : Z) :
  quit (run e cfg evs) = true →
  spawn_count (sup (run e cfg evs)) = 1%nat →
  spawn_oracle e 0 = Spawned p →
  (ChildKill p ∈ os (sup (run e cfg evs))
   ∧ (String.eqb (platform e) "win32" = false →
      ProcessKill (- p) ∈ os (sup (run e cfg evs))))
  ∨ 0%nat ∈ exited (run e cfg evs).
Proof.
  intros Hq Hn Hp. destruct (run_keeps_handle e cfg evs Hn) as (_ & Hstopped).
  destruct (Hstopped Hq p Hp) as [Hsig | Hflag]; [by left|].
  right. by apply run_exit_reported.
Qed.

(** A server that is running, and has written to stdout, when the window
    is closed: it and its group are signalled. *)
Lemma quit_stops_server_witness :
  ChildKill 4242%Z
    ∈ os (sup (run (linux spawning) windowed
                 [AppReady; ChildEvent 0 (EvStdout (ChunkBuffer "up")); WindowClosed]))
  ∧ ProcessKill (- 4242)%Z
      ∈ os (sup (run (linux spawning) windowed
                   [AppReady; ChildEvent 0 (EvStdout (ChunkBuffer "up")); WindowClosed])).
Proof.
  destruct (quit_stops_server (linux spawning) windowed
              [AppReady; ChildEvent 0 (EvStdout (ChunkBuffer "up")); WindowClosed]
              4242%Z eq_refl eq_refl eq_refl) as [(Hkill & Hgroup) | Hexited].
  - split; [exact Hkill | exact (Hgroup eq_refl)].
  - vm_compute in Hexited. by apply not_elem_of_nil in Hexited.
Defined.

Lemma createWindow_windows e cfg a :
  windows_created (createWindow e cfg a) = S (windows_created a).
Proof. unfold createWindow. cbn zeta. by destruct (isDev cfg). Qed.

Lemma app_quit_windows e a :
  windows_created (app_quit e a) = windows_created a.
Proof.
  unfold app_quit, on_quit, on_before_quit, on_closed.
  by destruct (electron a), (mainWindow a).
Qed.

Lemma createWindow_single_window e cfg a :
  windows_created a = 0%nat →
  (isHeadlessMode cfg = false → isDev cfg = false → spawn_count (sup a) = 0%nat) →
  ready a = true → electron a = true →
  Readings.single_window cfg (createWindow e cfg a).
Proof.
  intros Hn Hs Hr He.
  destruct (createWindow_spec e cfg a) as (Hcnt & (w & Hw) & _ & Hr' & He').
  unfold Readings.single_window.
  rewrite createWindow_windows, Hw, Hr', He', Hr, He, Hn, Hcnt.
  repeat split; try done.
  intros Hh Hd. rewrite Hd. by rewrite Hs.
Qed.

Lemma app_quit_single_window e cfg a :
  (windows_created a ≤ 1)%nat →
  (ready a = false → windows_created a = 0%nat) →
  (electron a = false → windows_created a = 0%nat) →
  (isHeadlessMode cfg = false → isDev cfg = false →
   spawn_count (sup a) = windows_created a) →
  Readings.single_window cfg (app_quit e a).
Proof.
  intros Hle Hr He Hs.
  destruct (app_quit_spec e a) as (Hcnt & Hq & Hr' & He').
  unfold Readings.single_window.
  rewrite app_quit_windows, Hcnt, Hq, Hr', He'. by repeat split.
Qed.

Lemma run_single_window e cfg (evs : list event) :
  Readings.single_window cfg (run e cfg evs).
Proof.
  induction evs as [|ev evs IH] using rev_ind.
  - unfold run, main, startElecron. cbn [fold_left].
    destruct (isHeadlessMode cfg) eqn:Hh; cbn zeta.
    + unfold Readings.single_window. cbn [mainWindow windows_created ready electron quit].
      repeat split; intros; first [done | lia | congruence].
    + unfold Readings.single_window.
      destruct (disableGPU cfg); cbn; repeat split; intros; first [done | lia].
  - rewrite run_snoc. set (a := run e cfg evs) in *.
    pose proof IH as (Hw & Hle & Hr & He & Hs).
    unfold step. destruct (quit a) eqn:Hq; [done|].
    destruct ev as [| | | |c cev].
    + destruct (ready a) eqn:Hra; [done|].
      destruct (electron a) eqn:Hea; cbn [electron].
      * unfold on_ready. apply createWindow_single_window; cbn; auto.
        intros Hh Hd. rewrite Hs by done. auto.
      * unfold Readings.single_window. cbn.
        repeat split; auto; intros; first [done | congruence].
    + destruct (electron a) eqn:Hea; [|done]. unfold on_activate.
      destruct (mainWindow a) eqn:Hwa; try done.
      specialize (Hw eq_refl). congruence.
    + destruct (mainWindow a) eqn:Hwa; try done.
      unfold on_window_all_closed. by apply app_quit_single_window.
    + by apply app_quit_single_window.
    + assert (∀ s' ex q, q = false → spawn_count s' = spawn_count (sup a) →
                Readings.single_window cfg
                  (State s' (mainWindow a) (windows_created a) (electron a)
                         (ready a) q ex)) as Hsame.
      { intros s' ex q -> Hs'. unfold Readings.single_window. cbn. rewrite Hs'.
        repeat split; auto. }
      destruct (is_close cev); cbn [sup];
        destruct (bool_decide _); unfold with_sup; cbn [sup mainWindow windows_created
                                                       electron ready quit exited];
        first [exact IH
              | apply Hsame; [done | (apply observe_spawn_count || done)]].
Qed.

(** One window is created at most in the lifetime of the application, and
    in the packaged windowed application a server is started exactly when
    the window is created: the number of servers started is the number of
    windows created. *)
Theorem one_window_one_server e cfg (evs : list event) :
  (windows_created (run e cfg evs) ≤ 1)%nat
  ∧ (isHeadlessMode cfg = false → isDev cfg = false →
     spawn_count (sup (run e cfg evs)) = windows_created (run e cfg evs)).
Proof.
  destruct (run_single_window e cfg evs) as (_ & Hle & _ & _ & Hs). by split.
Qed.

Lemma one_window_one_server_witness :
  spawn_count (sup (run (linux spawning) windowed [AppActivate; AppReady; AppActivate]))
  = windows_created (run (linux spawning) windowed [AppActivate; AppReady; AppActivate]).
Proof.
  destruct (one_window_one_server (linux spawning) windowed
              [AppActivate; AppReady; AppActivate]) as (_ & Hs).
  exact (Hs eq_refl eq_refl).
Defined.

End AppCoverage.

(** ** The bridge *)

Section PreloadCoverage.

Import Preload Readings.

Context {R : Type}.

Implicit Types (channel data : jsval) (st : ipc R).

(** A batch of sends transmits the messages on whitelisted channels, in
    the order they were sent, drops the others and leaves the
    subscriptions alone. *)
Theorem send_all_admitted (msgs : list (jsval * jsval)) st :
  send_all msgs st = Ipc (transmitted st ++ admitted msgs) (subscriptions st).
Proof.
  revert st. induction msgs as [|[c d] msgs IH]; intros st.
  - cbn. rewrite app_nil_r. by destruct st.
  - unfold send_all in *. cbn [fold_left fst snd]. rewrite IH.
    unfold admitted, send. cbn.
    destruct (includes validChannels c); cbn; [|done].
    by rewrite <- app_assoc.
Qed.

(** Sending and subscribing do not interfere: [send] leaves the
    subscriptions as they are, [receive] transmits nothing, and the two
    can be done in either order. *)
Theorem send_receive_commute channel data (channel' : jsval) (func : list jsval → R) st :
  send channel data (receive channel' func st)
    = receive channel' func (send channel data st)
  ∧ subscriptions (send channel data st) = subscriptions st
  ∧ transmitted (receive channel' func st) = transmitted st.
Proof.
  unfold send, receive.
  by destruct (includes validChannels channel), (includes validChannels channel').
Qed.

End PreloadCoverage.

(** ** The menu *)

Section MenuCoverage.

Import Menu.

Implicit Types (isMac : bool) (appName : string) (t : string → string).

(** On every platform and in every language the menu has exactly one
    entry with the quit role, and every role offered off macOS is offered
    on macOS as well. *)
Theorem quit_role_once isMac appName t :
  length (List.filter (String.eqb "quit") (List.flat_map roles (template isMac appName t)))
  = 1%nat
  ∧ List.flat_map roles (template false appName t)
    ⊆ List.flat_map roles (template true appName t).
Proof.
  split.
  - by destruct isMac.
  - apply (bool_decide_unpack _). vm_compute. exact I.
Qed.

(** The language and the application's name decide the labels and nothing
    else: the roles and the links of the menu are the same for all of
    them, the links being the three project pages, and putting the name
    and the translations through a relabelling relabels the template. *)
Theorem menu_shape_independent isMac appName t :
  (∀ appName' t',
     List.flat_map roles (template isMac appName t)
     = List.flat_map roles (template isMac appName' t'))
  ∧ List.flat_map links (template isMac appName t)
    = ["https://kinvolk.io/docs/headlamp/latest";
       "https://github.com/kinvolk/headlamp/issues";
       "https://github.com/kinvolk/headlamp"]
  ∧ (∀ f : string → string,
       template isMac (f appName) (fun key => f (t key))
       = List.map (relabel f) (template isMac appName t)).
Proof. by destruct isMac. Qed.

End MenuCoverage.

(** ** Language and menu *)

Section LocaleCoverage.

Import Menu Locale.

Implicit Types (e : env) (st : state) (l lng : string).

Local Abbreviation menu_for e lng :=
  (Some (template (String.eqb (platform e) "darwin") (appName e) (translate e lng))).

Lemma iter_setMenu e (n : nat) st :
  language (Nat.iter n (setMenu e) st) = language st
  ∧ listeners (Nat.iter n (setMenu e) st) = listeners st
  ∧ handlers (Nat.iter n (setMenu e) st) = handlers st
  ∧ menu_builds (Nat.iter n (setMenu e) st) = (menu_builds st + n)%nat
  ∧ (n ≠ 0%nat → menu (Nat.iter n (setMenu e) st) = menu_for e (language st)).
Proof.
  induction n as [|n (Hl & Hli & Hh & Hb & Hm)].
  - cbn. repeat split; [lia | done].
  - change (Nat.iter (S n) (setMenu e) st) with (setMenu e (Nat.iter n (setMenu e) st)).
    set (x := Nat.iter n (setMenu e) st) in *. unfold setMenu.
    cbn [language listeners handlers menu_builds menu].
    rewrite Hl, Hli, Hh, Hb. repeat split; first [done | lia].
Qed.

Lemma changeLanguage_spec e lng st :
  language (changeLanguage e lng st) = lng
  ∧ listeners (changeLanguage e lng st) = listeners st
  ∧ handlers (changeLanguage e lng st) = handlers st
  ∧ menu_builds (changeLanguage e lng st) = (menu_builds st + listeners st)%nat
  ∧ (listeners st ≠ 0%nat → menu (changeLanguage e lng st) = menu_for e lng).
Proof.
  unfold changeLanguage. cbn zeta. cbn [listeners].
  destruct (iter_setMenu e (listeners st)
              (State lng (menu st) (menu_builds st) (listeners st) (handlers st)))
    as (Hl & Hli & Hh & Hb & Hm).
  by repeat split.
Qed.

Lemma on_locale_idle e l st :
  l = "" ∨ l = language st → on_locale e l st = st.
Proof.
  unfold on_locale. intros [-> | ->]; [done|].
  by rewrite String.eqb_refl, andb_false_r.
Qed.

Lemma iter_idle e l (n : nat) st :
  l = "" ∨ l = language st → Nat.iter n (on_locale e l) st = st.
Proof.
  intros H. induction n as [|n IH]; [done|].
  change (Nat.iter (S n) (on_locale e l) st)
    with (on_locale e l (Nat.iter n (on_locale e l) st)).
  rewrite IH. by apply on_locale_idle.
Qed.

Lemma iter_on_locale e l (n : nat) st :
  l ≠ "" → l ≠ language st →
  Nat.iter (S n) (on_locale e l) st = changeLanguage e l st.
Proof.
  intros Hne Hlang. induction n as [|n IH].
  - cbn. unfold on_locale.
    apply String.eqb_neq in Hne. rewrite Hne.
    assert (String.eqb (language st) l = false) as -> by (apply String.eqb_neq; congruence).
    done.
  - change (Nat.iter (S (S n)) (on_locale e l) st)
      with (on_locale e l (Nat.iter (S n) (on_locale e l) st)).
    rewrite IH. apply on_locale_idle. right.
    by destruct (changeLanguage_spec e l st) as (-> & _).
Qed.

Lemma locale_message_cases e l st :
  ipc_locale e l st = st
  ∨ (l ≠ "" ∧ l ≠ language st ∧ handlers st ≠ 0%nat
     ∧ ipc_locale e l st = changeLanguage e l st).
Proof.
  unfold ipc_locale.
  destruct (String.eqb l "") eqn:He.
  { left. apply iter_idle. left. by apply String.eqb_eq. }
  destruct (String.eqb l (language st)) eqn:Hl.
  { left. apply iter_idle. right. by apply String.eqb_eq. }
  apply String.eqb_neq in He, Hl.
  destruct (handlers st) as [|n]; [by left|].
  right. by rewrite iter_on_locale.
Qed.

(** A ['locale'] message changes the language exactly when a window has
    registered the listener and the new locale is neither empty nor the
    current language; the language is then the new locale, and every
    ['languageChanged'] listener rebuilds the menu in it.  Any other
    message changes nothing. *)
Theorem locale_message e l st :
  (l = "" ∨ l = language st ∨ handlers st = 0%nat → ipc_locale e l st = st)
  ∧ (l ≠ "" → l ≠ language st → handlers st ≠ 0%nat →
     language (ipc_locale e l st) = l
     ∧ menu_builds (ipc_locale e l st) = (menu_builds st + listeners st)%nat
     ∧ (listeners st ≠ 0%nat → menu (ipc_locale e l st) = menu_for e l)).
Proof.
  unfold ipc_locale. split.
  - intros [H | [H | H]]; [by apply iter_idle; left | by apply iter_idle; right|].
    by rewrite H.
  - intros Hne Hlang Hh. destruct (handlers st) as [|n]; [done|].
    rewrite iter_on_locale by done.
    by destruct (changeLanguage_spec e l st) as (? & _ & _ & ? & ?).
Qed.

Lemma locale_message_witness :
  language (ipc_locale (Env "linux" "Headlamp" tagged) "fr"
              (createWindow (start (Env "linux" "Headlamp" tagged) "en")))
  = "fr".
Proof.
  destruct (locale_message (Env "linux" "Headlamp" tagged) "fr"
              (createWindow (start (Env "linux" "Headlamp" tagged) "en")))
    as (_ & Hset).
  destruct Hset as (Hl & _); [discriminate | discriminate | discriminate |].
  exact Hl.
Defined.

(** Repeating a ['locale'] message changes nothing: the language is set
    and the menu rebuilt by the first one only. *)
Theorem locale_message_idempotent e l st :
  ipc_locale e l (ipc_locale e l st) = ipc_locale e l st.
Proof.
  destruct (locale_message_cases e l st) as [Hidle | (_ & _ & _ & Hset)].
  - by rewrite !Hidle.
  - rewrite Hset. unfold ipc_locale at 1. apply iter_idle. right.
    by destruct (changeLanguage_spec e l st) as (-> & _).
Qed.

Lemma step_menu e st (ev : event) :
  is_before_quit ev = false →
  menu st = menu_for e (language st) ∧ (handlers st ≠ 0%nat → listeners st ≠ 0%nat) →
  menu (step e st ev) = menu_for e (language (step e st ev))
  ∧ (handlers (step e st ev) ≠ 0%nat → listeners (step e st ev) ≠ 0%nat).
Proof.
  intros Hev (Hm & Hl). destruct ev as [|l|]; [| |done]; cbn [step].
  - by split.
  - destruct (locale_message_cases e l st) as [-> | (Hne & Hlang & Hh & ->)]; [done|].
    destruct (changeLanguage_spec e l st) as (-> & -> & -> & _ & Hmenu).
    split; [by apply Hmenu, Hl | done].
Qed.

(** From the start of the application until it is about to quit, the
    application menu is the template in the current language, whatever
    ['locale'] messages arrive and whenever the window is created. *)
Theorem menu_follows_language e lng (evs : list event) :
  forallb (fun ev => negb (is_before_quit ev)) evs = true →
  menu (run e lng evs) = menu_for e (language (run e lng evs)).
Proof.
  intros Hevs.
  enough (menu (run e lng evs) = menu_for e (language (run e lng evs))
          ∧ (handlers (run e lng evs) ≠ 0%nat → listeners (run e lng evs) ≠ 0%nat))
    as (Hm & _) by done.
  unfold run.
  assert (menu (start e lng) = menu_for e (language (start e lng))
          ∧ (handlers (start e lng) ≠ 0%nat → listeners (start e lng) ≠ 0%nat))
    as Hstart by done.
  revert Hstart. generalize (start e lng) as st.
  induction evs as [|ev evs IH]; intros st Hst; [done|].
  cbn in Hevs. apply andb_true_iff in Hevs as (Hev & Hevs).
  cbn [fold_left]. apply IH; [done|].
  apply step_menu; [by apply negb_true_iff | done].
Qed.

Lemma menu_follows_language_witness :
  menu (run (Env "darwin" "Headlamp" tagged) "en"
          [LocaleMessage "fr"; CreateWindow; LocaleMessage "de"; LocaleMessage ""])
  = Some (template true "Headlamp" (tagged "de")).
Proof.
  rewrite (menu_follows_language (Env "darwin" "Headlamp" tagged) "en"
             [LocaleMessage "fr"; CreateWindow; LocaleMessage "de"; LocaleMessage ""]
             eq_refl).
  reflexivity.
Defined.

End LocaleCoverage.
